(** * Cross-chain event listener (script.py) and the enforce_types decorator
      (decorators.py): a shallow embedding and its properties.

    The Python objects are modelled by explicit state passing.  Everything the
    program obtains from outside (the RPC client, the gas oracle, the outcome
    of a file operation, the Python runtime's text codec and JSON codec) is an
    explicit input of the function that asks for it. *)

From Stdlib Require Import ZArith NArith String Ascii List Bool Lia.
From Stdlib Require Import Sorting.Sorted DecimalString.
From stdpp Require Import base option list gmap sets strings.

Local Set Warnings "-register-all".
Local Open Scope Z_scope.
Local Open Scope string_scope.

(* ===================================================================== *)
(** ** Python exceptions and results *)
(* ===================================================================== *)

(** The exception classes (all subclasses of [Exception]) that the two source
    files raise, catch or let through. *)
Inductive exn : Type :=
| IOError
| JSONDecodeError
| UnicodeDecodeError
| AttributeError
| TypeError
| ValueError
| RequestException
| OtherError (name : string).

Definition exn_eqb (a b : exn) : bool :=
  match a, b with
  | IOError, IOError | JSONDecodeError, JSONDecodeError
  | UnicodeDecodeError, UnicodeDecodeError | AttributeError, AttributeError
  | TypeError, TypeError | ValueError, ValueError
  | RequestException, RequestException => true
  | OtherError x, OtherError y => String.eqb x y
  | _, _ => false
  end.

(** The outcome of a Python call: a value, or a raised exception. *)
Inductive res (A : Type) : Type :=
| Ret (a : A)
| Raise (e : exn).
Arguments Ret {A} a.
Arguments Raise {A} e.

Definition returns {A} (r : res A) : bool :=
  match r with Ret _ => true | Raise _ => false end.

(* ===================================================================== *)
(** ** JSON documents and the members of the dedup set *)
(* ===================================================================== *)

(** What [json.load] produces (numbers restricted to integers). *)
Inductive json : Type :=
| JNull
| JBool (b : bool)
| JNum (z : Z)
| JStr (s : string)
| JArr (items : list json)
| JObj (pairs : list (string * json)).

(** Members of a Python [set] built from JSON atoms.  As set members Python
    identifies [True] with [1] and [False] with [0]. *)
Inductive hashable : Type :=
| HStr (s : string)
| HInt (z : Z)
| HNone.

Global Instance hashable_eq_dec : EqDecision hashable.
Proof. solve_decision. Defined.

Definition hashable_code (h : hashable) : string + Z + unit :=
  match h with
  | HStr s => inl (inl s)
  | HInt z => inl (inr z)
  | HNone => inr tt
  end.

Definition hashable_decode (c : string + Z + unit) : hashable :=
  match c with
  | inl (inl s) => HStr s
  | inl (inr z) => HInt z
  | inr _ => HNone
  end.

Global Instance hashable_countable : Countable hashable.
Proof.
  apply (inj_countable' hashable_code hashable_decode).
  intros []; reflexivity.
Defined.

(** [hash(v)] for a JSON value: lists and dicts are unhashable. *)
Definition hash_of_json (v : json) : option hashable :=
  match v with
  | JNull => Some HNone
  | JBool b => Some (HInt (if b then 1 else 0))
  | JNum z => Some (HInt z)
  | JStr s => Some (HStr s)
  | JArr _ | JObj _ => None
  end.

Definition json_of_hashable (h : hashable) : json :=
  match h with
  | HStr s => JStr s
  | HInt z => JNum z
  | HNone => JNull
  end.

(** [d.get(key, default)] on the dict that [json.load] builds from an object:
    a later pair with the same key overrides an earlier one. *)
Fixpoint dict_get (key : string) (pairs : list (string * json)) (default : json) : json :=
  match pairs with
  | [] => default
  | (k, v) :: rest =>
      if String.eqb k key then dict_get key rest v else dict_get key rest default
  end.

Fixpoint chars_of (s : string) : list string :=
  match s with
  | EmptyString => []
  | String c rest => String c EmptyString :: chars_of rest
  end.

Fixpoint hash_all (items : list json) : option (list hashable) :=
  match items with
  | [] => Some []
  | v :: rest =>
      match hash_of_json v, hash_all rest with
      | Some h, Some hs => Some (h :: hs)
      | _, _ => None
      end
  end.

(** [set(v)]: iterate [v] and collect its members.  A list yields its items
    (TypeError on an unhashable item), a string its characters, a dict its
    keys; any other JSON value is not iterable. *)
Definition set_of_json (v : json) : res (gset hashable) :=
  match v with
  | JArr items =>
      match hash_all items with
      | Some hs => Ret (list_to_set hs)
      | None => Raise TypeError
      end
  | JStr s => Ret (list_to_set (HStr <$> chars_of s))
  | JObj pairs => Ret (list_to_set ((fun p => HStr (fst p)) <$> pairs))
  | JNull | JBool _ | JNum _ => Raise TypeError
  end.

(** The document written by [_save]. *)
Definition snapshot_doc (s : gset hashable) : json :=
  JObj [("processed_txs", JArr (json_of_hashable <$> elements s))].

(* ===================================================================== *)
(** ** The Python runtime used by StateDB *)
(* ===================================================================== *)

(** Text-mode file I/O and the json module.  [text_decode] is what reading a
    file opened with mode 'r' does to its bytes (None: UnicodeDecodeError);
    [json_loads] is None on a JSONDecodeError. *)
Record runtime : Type := {
  text_decode : list Byte.byte -> option string;
  text_encode : string -> list Byte.byte;
  json_loads : string -> option json;
  json_dumps : json -> string
}.

(** The bytes [_save] sends to the file for a given set. *)
Definition snapshot_bytes (rt : runtime) (s : gset hashable) : list Byte.byte :=
  text_encode rt (json_dumps rt (snapshot_doc s)).

(** The runtime round-trips the snapshot of [s]. *)
Definition codec_roundtrips (rt : runtime) (s : gset hashable) : Prop :=
  text_decode rt (snapshot_bytes rt s) = Some (json_dumps rt (snapshot_doc s)) /\
  json_loads rt (json_dumps rt (snapshot_doc s)) = Some (snapshot_doc s).

(* ===================================================================== *)
(** ** Events, log records and the process state *)
(* ===================================================================== *)

(** [event['args']]: each argument may be missing from the dict. *)
Record event_args : Type := {
  arg_from : option string;
  arg_amount : option Z;
  arg_toChainId : option Z
}.

(** A log entry returned by the event filter.  [args] is None when the entry
    has no 'args' key. *)
Record event : Type := {
  transactionHash : list Byte.byte;
  args : option event_args;
  blockNumber : Z;
  logIndex : Z
}.

Definition hex_digit (n : N) : ascii :=
  if (n <? 10)%N then ascii_of_N (48 + n) else ascii_of_N (87 + n).

Fixpoint hex_digits (bs : list Byte.byte) : string :=
  match bs with
  | [] => EmptyString
  | b :: rest =>
      let n := Byte.to_N b in
      String (hex_digit (n / 16)) (String (hex_digit (n mod 16)) (hex_digits rest))
  end.

(** [HexBytes.hex()]: the 0x-prefixed lower-case rendering. *)
Definition hex (bs : list Byte.byte) : string := "0x" ++ hex_digits bs.

Inductive level : Type := DEBUG | INFO | WARNING | ERROR.

(** One constructor per logging call of script.py. *)
Inductive message : Type :=
| MsgStateDBInit (loaded : nat)
| MsgLoadError (e : exn)
| MsgSaveError
| MsgMarked (tx : string)
| MsgHeightFailed (e : exn)
| MsgSkipProcessed (tx : string)
| MsgFoundNew (tx : string)
| MsgMalformed (tx : string)
| MsgDifferentChain (tx : string) (id : Z)
| MsgProcessingLock (amount : Z) (sender : string)
| MsgOracleUnavailable
| MsgOraclePrice (price : option string)
| MsgSimulationMint (recipient : string) (amount : Z)
| MsgNoLatestBlock
| MsgScanning (from_block to_block : Z)
| MsgNoEvents (from_block to_block : Z)
| MsgNoNewBlocks
| MsgUnexpected (e : exn)
| MsgRestarting (seconds : N).

(** Observable effects.  [Entered e] is a ghost record of a call
    [process_event(e)]; it has no counterpart in the program's output. *)
Inductive action : Type :=
| Logged (l : level) (m : message)
| Printed
| Slept (seconds : N)
| Entered (e : event).

(** The objects reachable from a CrossChainEventListener, the file behind
    [state_db.db_file_path] (None: the path does not exist) and the effects
    so far, oldest first.  Block numbers are Python integers.  The poll
    interval is the configured number of seconds, a non-negative integer
    ([time.sleep] rejects a negative one). *)
Record state : Type := {
  processed_txs : gset hashable;
  db_file : option (list Byte.byte);
  last_processed_block : Z;
  poll_interval : N;
  trace : list action
}.

Definition set_processed_txs (v : gset hashable) (s : state) : state :=
  {| processed_txs := v; db_file := db_file s;
     last_processed_block := last_processed_block s;
     poll_interval := poll_interval s; trace := trace s |}.

Definition set_db_file (v : option (list Byte.byte)) (s : state) : state :=
  {| processed_txs := processed_txs s; db_file := v;
     last_processed_block := last_processed_block s;
     poll_interval := poll_interval s; trace := trace s |}.

Definition set_last_processed_block (v : Z) (s : state) : state :=
  {| processed_txs := processed_txs s; db_file := db_file s;
     last_processed_block := v;
     poll_interval := poll_interval s; trace := trace s |}.

Definition add_action (a : action) (s : state) : state :=
  {| processed_txs := processed_txs s; db_file := db_file s;
     last_processed_block := last_processed_block s;
     poll_interval := poll_interval s; trace := trace s ++ [a] |}.

(* ===================================================================== *)
(** ** A state-and-exception monad for method bodies *)
(* ===================================================================== *)

(** A method body: it may change the state and then returns or raises.
    Changes made before a raise persist, as in Python. *)
Definition M (A : Type) : Type := state -> res A * state.

Definition ret {A} (a : A) : M A := fun s => (Ret a, s).

Definition bind {A B} (m : M A) (f : A -> M B) : M B := fun s =>
  match m s with
  | (Ret a, s') => f a s'
  | (Raise e, s') => (Raise e, s')
  end.

Declare Scope py_scope.
Delimit Scope py_scope with py.
Notation "x ← y ; z" := (bind y (fun x => z))
  (at level 20, y at level 100, z at level 200, only parsing) : py_scope.
Notation "y ;; z" := (bind y (fun _ => z))
  (at level 100, z at level 200, only parsing, right associativity) : py_scope.
Local Open Scope py_scope.

Definition raise {A} (e : exn) : M A := fun s => (Raise e, s).

Definition lift {A} (r : res A) : M A := fun s => (r, s).

Definition gets {A} (f : state -> A) : M A := fun s => (Ret (f s), s).

Definition modify (f : state -> state) : M unit := fun s => (Ret tt, f s).

Definition emit (a : action) : M unit := modify (add_action a).

Definition log (l : level) (m : message) : M unit := emit (Logged l m).

(** [try: m except <classes>: h]. *)
Definition try_except {A} (m : M A) (catches : exn -> bool) (h : exn -> M A) : M A :=
  fun s =>
    match m s with
    | (Raise e, s') => if catches e then h e s' else (Raise e, s')
    | r => r
    end.

(** The state a computation leaves behind, and its outcome. *)
Definition exec {A} (m : M A) (s : state) : state := snd (m s).
Definition outcome {A} (m : M A) (s : state) : res A := fst (m s).

(* ===================================================================== *)
(** ** StateDB *)
(* ===================================================================== *)

(** What the operating system does with an attempt to read the file. *)
Inductive read_outcome : Type :=
| ReadOk
| ReadFails.

(** What the operating system does with [open(path, 'w')] followed by the
    writes of [json.dump]: the whole text reaches the file; or [open] itself
    raises IOError and the file is untouched; or [open] succeeds, which
    truncates the file, and an IOError is raised when [n] bytes have been
    written. *)
Inductive write_outcome : Type :=
| WriteOk
| OpenFails
| FailsAfter (n : nat).

Section StateDB.
Context (rt : runtime).

Definition open_read (r : read_outcome) (bytes : list Byte.byte) : M string :=
  match r with
  | ReadFails => raise IOError
  | ReadOk =>
      match text_decode rt bytes with
      | Some text => ret text
      | None => raise UnicodeDecodeError
      end
  end.

Definition json_load (text : string) : M json :=
  match json_loads rt text with
  | Some data => ret data
  | None => raise JSONDecodeError
  end.

(** [data.get('processed_txs', [])]: only a dict has [.get]. *)
Definition data_get_processed_txs (data : json) : M json :=
  match data with
  | JObj pairs => ret (dict_get "processed_txs" pairs (JArr []))
  | _ => raise AttributeError
  end.

Definition _load (r : read_outcome) : M (gset hashable) :=
  file ← gets db_file;
  match file with
  | None => ret ∅
  | Some bytes =>
      try_except
        (text ← open_read r bytes;
         data ← json_load text;
         txs ← data_get_processed_txs data;
         lift (set_of_json txs))
        (fun e => exn_eqb e JSONDecodeError || exn_eqb e IOError)
        (fun e => log ERROR (MsgLoadError e);; ret ∅)
  end.

(** [StateDB.__init__] *)
Definition StateDB_init (r : read_outcome) : M unit :=
  txs ← _load r;
  modify (set_processed_txs txs);;
  log INFO (MsgStateDBInit (size txs)).

Definition write_file (w : write_outcome) (bytes : list Byte.byte) : M unit :=
  match w with
  | WriteOk => modify (set_db_file (Some bytes))
  | OpenFails => raise IOError
  | FailsAfter n => modify (set_db_file (Some (take n bytes)));; raise IOError
  end.

Definition _save (w : write_outcome) : M unit :=
  try_except
    (txs ← gets processed_txs;
     write_file w (snapshot_bytes rt txs))
    (fun e => exn_eqb e IOError)
    (fun e => log ERROR MsgSaveError).

Definition is_processed (tx_hash : string) : M bool :=
  gets (fun s => bool_decide (HStr tx_hash ∈ processed_txs s)).

Definition mark_as_processed (w : write_outcome) (tx_hash : string) : M unit :=
  modify (fun s => set_processed_txs ({[HStr tx_hash]} ∪ processed_txs s) s);;
  _save w;;
  log INFO (MsgMarked tx_hash).

End StateDB.

(** A process that has just started on a given file system, with the poll
    interval of CONFIG and the block cursor at 0. *)
Definition fresh (file : option (list Byte.byte)) : state :=
  {| processed_txs := ∅; db_file := file; last_processed_block := 0;
     poll_interval := 15; trace := [] |}.

(* ===================================================================== *)
(** ** BlockchainConnector and CrossChainEventListener *)
(* ===================================================================== *)

(** What the outside world answers while one event is processed: the
    destination node's [eth.chain_id], the gas-oracle request (the value of
    [data.get('result', {}).get('ProposeGasPrice')], or the exception of the
    request) and the fate of the write in [_save]. *)
Record event_env : Type := {
  dest_chain_id : res Z;
  gas_oracle : res (option string);
  flush : write_outcome
}.

(** What the outside world answers during one pass of the polling loop: the
    source node's [eth.block_number], the entries of the filter created for
    a block range, and the environment of the i-th entry's processing. *)
Record cycle_env : Type := {
  block_number : res Z;
  entries : Z -> Z -> res (list event);
  event_envs : nat -> event_env
}.

(** [BlockchainConnector.get_latest_block_number] *)
Definition get_latest_block_number (query : res Z) : M (option Z) :=
  match query with
  | Ret n => ret (Some n)
  | Raise e => log ERROR (MsgHeightFailed e);; ret None
  end.

(** Python truthiness of the three event arguments. *)
Definition truthy_str (v : option string) : bool :=
  match v with Some s => negb (String.eqb s "") | None => false end.

Definition truthy_int (v : option Z) : bool :=
  match v with Some z => negb (z =? 0)%Z | None => false end.

(** [Web3.from_wei(amount, 'ether')] accepts 0 .. 2**256 - 1 only; its value
    is used in a log line and nowhere else. *)
Definition from_wei (amount : Z) : res unit :=
  if ((0 <=? amount) && (amount <? 2 ^ 256))%Z then Ret tt else Raise ValueError.

Definition _get_current_gas_price_from_oracle (request : res (option string))
  : M (option string) :=
  try_except (lift request)
    (fun e => exn_eqb e RequestException)
    (fun e => log WARNING MsgOracleUnavailable;; ret None).

Section Listener.
Context (rt : runtime).

Definition process_event (env : event_env) (ev : event) : M unit :=
  emit (Entered ev);;
  let tx_hash := hex (transactionHash ev) in
  seen ← is_processed tx_hash;
  if seen then log DEBUG (MsgSkipProcessed tx_hash)
  else
    log INFO (MsgFoundNew tx_hash);;
    let sender := args ev ≫= arg_from in
    let amount := args ev ≫= arg_amount in
    let target_chain_id := args ev ≫= arg_toChainId in
    match sender, amount, target_chain_id with
    | Some sender', Some amount', Some target' =>
        if negb (truthy_str sender && truthy_int amount && truthy_int target_chain_id)
        then log ERROR (MsgMalformed tx_hash)
        else
          destination_chain_id ← lift (dest_chain_id env);
          if negb (target' =? destination_chain_id)%Z
          then log WARNING (MsgDifferentChain tx_hash target')
          else
            lift (from_wei amount');;
            log INFO (MsgProcessingLock amount' sender');;
            gas_price ← _get_current_gas_price_from_oracle (gas_oracle env);
            log INFO (MsgOraclePrice gas_price);;
            emit Printed;;
            log INFO (MsgSimulationMint sender' amount');;
            emit Printed;;
            mark_as_processed rt (flush env) tx_hash
    | _, _, _ => log ERROR (MsgMalformed tx_hash)
    end.

(** [for event in events: self.process_event(event)], the i-th event being
    processed in environment [envs i]. *)
Fixpoint process_events (envs : nat -> event_env) (i : nat) (events : list event)
  : M unit :=
  match events with
  | [] => ret tt
  | ev :: rest => process_event (envs i) ev;; process_events envs (S i) rest
  end.

Definition sleep (seconds : N) : M unit := emit (Slept seconds).

(** The body of the [try] of one pass of [while True]. *)
Definition listen_try (env : cycle_env) : M unit :=
  latest ← get_latest_block_number (block_number env);
  match latest with
  | None =>
      log WARNING MsgNoLatestBlock;;
      interval ← gets poll_interval;
      sleep interval
  | Some latest_block =>
      last ← gets last_processed_block;
      (if (latest_block >? last)%Z then
         let from_block := last + 1 in
         let to_block := latest_block in
         log INFO (MsgScanning from_block to_block);;
         events ← lift (entries env from_block to_block);
         match events with
         | [] => log INFO (MsgNoEvents from_block to_block)
         | _ :: _ => process_events (event_envs env) 0 events
         end;;
         modify (set_last_processed_block to_block)
       else log DEBUG MsgNoNewBlocks);;
      interval ← gets poll_interval;
      sleep interval
  end.

(** One pass of [while True]: the [try] and its catch-all handler. *)
Definition listen_pass (env : cycle_env) : M unit :=
  try_except (listen_try env)
    (fun _ => true)
    (fun e =>
       log ERROR (MsgUnexpected e);;
       interval ← gets poll_interval;
       log INFO (MsgRestarting (interval * 2));;
       sleep (interval * 2)).

(** [listen]: the loop never ends by itself; a run is observed through its
    first passes, one environment per pass. *)
Fixpoint listen (envs : list cycle_env) : M unit :=
  match envs with
  | [] => ret tt
  | env :: rest => listen_pass env;; listen rest
  end.

End Listener.

(** Projections of a trace. *)
Definition is_dispatch (a : action) : bool :=
  match a with Logged INFO (MsgSimulationMint _ _) => true | _ => false end.

Definition dispatches (t : list action) : list action := List.filter is_dispatch t.

Definition entered (t : list action) : list event :=
  omap (fun a => match a with Entered e => Some e | _ => None end) t.

Definition sleeps (t : list action) : list N :=
  omap (fun a => match a with Slept n => Some n | _ => None end) t.

Definition logged (l : level) (m : message) (t : list action) : Prop :=
  Logged l m ∈ t.

(* ===================================================================== *)
(** ** A reference runtime *)
(* ===================================================================== *)

(** An executable instance of [runtime] for concrete runs: strict UTF-8
    decoding, and the json module on documents without floats and without
    \u escapes, printed as [json.dump(..., indent=4)] prints them. *)
Module RefRuntime.

Definition dq : ascii := ascii_of_nat 34.
Definition backslash : ascii := ascii_of_nat 92.
Definition nl : ascii := ascii_of_nat 10.

Definition continuation (b : N) : bool := ((128 <=? b) && (b <? 192))%N.
Definition between (lo hi b : N) : bool := ((lo <=? b) && (b <=? hi))%N.

(** Well-formed UTF-8 byte sequences (Unicode, table 3-7). *)
Fixpoint utf8_valid (l : list N) : bool :=
  match l with
  | [] => true
  | b :: r =>
      if (b <? 128)%N then utf8_valid r
      else if between 194 223 b then
        match r with
        | c1 :: r1 => continuation c1 && utf8_valid r1
        | _ => false
        end
      else if between 224 239 b then
        match r with
        | c1 :: c2 :: r2 =>
            (if (b =? 224)%N then between 160 191 c1
             else if (b =? 237)%N then between 128 159 c1
             else continuation c1)
            && continuation c2 && utf8_valid r2
        | _ => false
        end
      else if between 240 244 b then
        match r with
        | c1 :: c2 :: c3 :: r3 =>
            (if (b =? 240)%N then between 144 191 c1
             else if (b =? 244)%N then between 128 143 c1
             else continuation c1)
            && continuation c2 && continuation c3 && utf8_valid r3
        | _ => false
        end
      else false
  end.

Definition decode (bytes : list Byte.byte) : option string :=
  if utf8_valid (Byte.to_N <$> bytes) then Some (string_of_list_byte bytes) else None.

Definition encode (text : string) : list Byte.byte := list_byte_of_string text.

(** *** Printing *)

Fixpoint escape (s : string) : string :=
  match s with
  | EmptyString => EmptyString
  | String c r =>
      if Ascii.eqb c dq then String backslash (String dq (escape r))
      else if Ascii.eqb c backslash then String backslash (String backslash (escape r))
      else if Ascii.eqb c nl then String backslash (String "n" (escape r))
      else String c (escape r)
  end.

Definition quoted (s : string) : string :=
  String dq (escape s ++ String dq EmptyString).

Definition show_Z (z : Z) : string :=
  DecimalString.NilZero.string_of_int (Z.to_int z).

Fixpoint spaces (n : nat) : string :=
  match n with O => EmptyString | S k => String " " (spaces k) end.

Definition line (lvl : nat) : string := String nl (spaces (4 * lvl)).

Fixpoint dump (lvl : nat) (j : json) : string :=
  match j with
  | JNull => "null"
  | JBool true => "true"
  | JBool false => "false"
  | JNum z => show_Z z
  | JStr s => quoted s
  | JArr [] => "[]"
  | JArr (x :: xs) =>
      "[" ++ line (S lvl) ++ dump (S lvl) x
      ++ (fix more (l : list json) : string :=
            match l with
            | [] => EmptyString
            | y :: ys => "," ++ line (S lvl) ++ dump (S lvl) y ++ more ys
            end) xs
      ++ line lvl ++ "]"
  | JObj [] => "{}"
  | JObj ((k, x) :: xs) =>
      "{" ++ line (S lvl) ++ quoted k ++ ": " ++ dump (S lvl) x
      ++ (fix more (l : list (string * json)) : string :=
            match l with
            | [] => EmptyString
            | (k', y) :: ys =>
                "," ++ line (S lvl) ++ quoted k' ++ ": " ++ dump (S lvl) y ++ more ys
            end) xs
      ++ line lvl ++ "}"
  end.

Definition dumps (j : json) : string := dump 0 j.

(** *** Parsing *)

Definition is_ws (c : ascii) : bool :=
  let n := N_of_ascii c in ((n =? 32) || (n =? 10) || (n =? 13) || (n =? 9))%N.

Definition is_digit (c : ascii) : bool := between 48 57 (N_of_ascii c).

Fixpoint skip_ws (l : list ascii) : list ascii :=
  match l with
  | c :: r => if is_ws c then skip_ws r else l
  | [] => []
  end.

Definition unescape (c : ascii) : option ascii :=
  if Ascii.eqb c dq then Some dq
  else if Ascii.eqb c backslash then Some backslash
  else if Ascii.eqb c "/" then Some "/"%char
  else if Ascii.eqb c "n" then Some nl
  else if Ascii.eqb c "t" then Some (ascii_of_nat 9)
  else if Ascii.eqb c "r" then Some (ascii_of_nat 13)
  else if Ascii.eqb c "b" then Some (ascii_of_nat 8)
  else if Ascii.eqb c "f" then Some (ascii_of_nat 12)
  else None.

(** The rest of a string literal, after its opening quote. *)
Fixpoint string_body (l : list ascii) : option (string * list ascii) :=
  match l with
  | [] => None
  | c :: r =>
      if Ascii.eqb c dq then Some (EmptyString, r)
      else if Ascii.eqb c backslash then
        match r with
        | e :: r' =>
            match unescape e, string_body r' with
            | Some c', Some (s, rest) => Some (String c' s, rest)
            | _, _ => None
            end
        | [] => None
        end
      else if (N_of_ascii c <? 32)%N then None
      else
        match string_body r with
        | Some (s, rest) => Some (String c s, rest)
        | None => None
        end
  end.

Fixpoint digits (acc : Z) (l : list ascii) : Z * list ascii :=
  match l with
  | c :: r =>
      if is_digit c then digits (10 * acc + (Z.of_N (N_of_ascii c) - 48)) r
      else (acc, l)
  | [] => (acc, [])
  end.

Definition number (l : list ascii) : option (Z * list ascii) :=
  match l with
  | c :: r =>
      if Ascii.eqb c "-" then
        match r with
        | d :: _ => if is_digit d then let (z, rest) := digits 0 r in Some (- z, rest)
                    else None
        | [] => None
        end
      else if is_digit c then Some (digits 0 l)
      else None
  | [] => None
  end.

Fixpoint expect (word : string) (l : list ascii) : option (list ascii) :=
  match word, l with
  | EmptyString, _ => Some l
  | String w ws, c :: r => if Ascii.eqb w c then expect ws r else None
  | String _ _, [] => None
  end.

Fixpoint value (fuel : nat) (l : list ascii) {struct fuel} : option (json * list ascii) :=
  match fuel with
  | O => None
  | S n =>
      match skip_ws l with
      | [] => None
      | c :: r =>
          if Ascii.eqb c dq then
            match string_body r with
            | Some (s, rest) => Some (JStr s, rest)
            | None => None
            end
          else if Ascii.eqb c "[" then
            match skip_ws r with
            | c' :: r' =>
                if Ascii.eqb c' "]" then Some (JArr [], r')
                else
                  match items n r with
                  | Some (xs, rest) => Some (JArr xs, rest)
                  | None => None
                  end
            | [] => None
            end
          else if Ascii.eqb c "{" then
            match skip_ws r with
            | c' :: r' =>
                if Ascii.eqb c' "}" then Some (JObj [], r')
                else
                  match members n r with
                  | Some (xs, rest) => Some (JObj xs, rest)
                  | None => None
                  end
            | [] => None
            end
          else if Ascii.eqb c "n" then
            match expect "null" (c :: r) with Some rest => Some (JNull, rest) | None => None end
          else if Ascii.eqb c "t" then
            match expect "true" (c :: r) with Some rest => Some (JBool true, rest) | None => None end
          else if Ascii.eqb c "f" then
            match expect "false" (c :: r) with Some rest => Some (JBool false, rest) | None => None end
          else
            match number (c :: r) with
            | Some (z, rest) => Some (JNum z, rest)
            | None => None
            end
      end
  end
with items (fuel : nat) (l : list ascii) {struct fuel} : option (list json * list ascii) :=
  match fuel with
  | O => None
  | S n =>
      match value n l with
      | Some (x, rest) =>
          match skip_ws rest with
          | c :: r =>
              if Ascii.eqb c "]" then Some ([x], r)
              else if Ascii.eqb c "," then
                match items n r with
                | Some (xs, rest') => Some (x :: xs, rest')
                | None => None
                end
              else None
          | [] => None
          end
      | None => None
      end
  end
with members (fuel : nat) (l : list ascii) {struct fuel}
  : option (list (string * json) * list ascii) :=
  match fuel with
  | O => None
  | S n =>
      match skip_ws l with
      | q :: r0 =>
          if Ascii.eqb q dq then
            match string_body r0 with
            | Some (k, after_key) =>
                match skip_ws after_key with
                | colon :: r1 =>
                    if Ascii.eqb colon ":" then
                      match value n r1 with
                      | Some (x, rest) =>
                          match skip_ws rest with
                          | c :: r =>
                              if Ascii.eqb c "}" then Some ([(k, x)], r)
                              else if Ascii.eqb c "," then
                                match members n r with
                                | Some (xs, rest') => Some ((k, x) :: xs, rest')
                                | None => None
                                end
                              else None
                          | [] => None
                          end
                      | None => None
                      end
                    else None
                | [] => None
                end
            | None => None
            end
          else None
      | [] => None
      end
  end.

Definition loads (text : string) : option json :=
  let l := list_ascii_of_string text in
  match value (2 * List.length l + 2) l with
  | Some (j, rest) => match skip_ws rest with [] => Some j | _ :: _ => None end
  | None => None
  end.

Definition rt : runtime :=
  {| text_decode := decode; text_encode := encode;
     json_loads := loads; json_dumps := dumps |}.

End RefRuntime.

(* ===================================================================== *)
(** ** decorators.py: enforce_types *)
(* ===================================================================== *)

(** The outcome of a wrapped call, with the number of times the wrapped
    function's body was run (a ghost count). *)
Record wrapped_result (value : Type) : Type := {
  call_outcome : res value;
  body_runs : nat
}.
Arguments call_outcome {value} _.
Arguments body_runs {value} _.

Section EnforceTypes.
(** Python values, annotation objects, and the positional and keyword
    arguments of a call. *)
Context {value annot call : Type}.

(** [isinstance(v, a)], which raises when [a] is not something a value can
    be an instance of, and [a.__name__] (None: no such attribute). *)
Context (isinstance : value -> annot -> res bool).
Context (type_name : annot -> option string).

(** A decorated function: [func.__annotations__]; what
    [inspect.signature(func).bind(args, kwargs)] followed by
    [apply_defaults()] yields for a call, in parameter order; and what
    [func(args, kwargs)] does. *)
Record func : Type := {
  annotations : gmap string annot;
  bind_arguments : call -> res (list (string * value));
  run_body : call -> res value
}.

(** [if not isinstance(v, expected): raise TypeError(f"... {expected.__name__} ...")] *)
Definition check_instance (v : value) (expected : annot) : res unit :=
  match isinstance v expected with
  | Raise e => Raise e
  | Ret true => Ret tt
  | Ret false =>
      match type_name expected with
      | Some _ => Raise TypeError
      | None => Raise AttributeError
      end
  end.

(** The loop over [bound_args.arguments.items()]. *)
Fixpoint check_arguments (f : func) (bound : list (string * value)) : res unit :=
  match bound with
  | [] => Ret tt
  | (name, v) :: rest =>
      match annotations f !! name with
      | Some expected_type =>
          match check_instance v expected_type with
          | Ret _ => check_arguments f rest
          | Raise e => Raise e
          end
      | None => check_arguments f rest
      end
  end.

(** [enforce_types(func)(args, kwargs)] *)
Definition enforce_types (f : func) (c : call) : wrapped_result value :=
  match bind_arguments f c with
  | Raise e => {| call_outcome := Raise e; body_runs := 0 |}
  | Ret bound =>
      match check_arguments f bound with
      | Raise e => {| call_outcome := Raise e; body_runs := 0 |}
      | Ret _ =>
          match run_body f c with
          | Raise e => {| call_outcome := Raise e; body_runs := 1 |}
          | Ret result =>
              match annotations f !! "return" with
              | Some expected_return_type =>
                  match check_instance result expected_return_type with
                  | Ret _ => {| call_outcome := Ret result; body_runs := 1 |}
                  | Raise e => {| call_outcome := Raise e; body_runs := 1 |}
                  end
              | None => {| call_outcome := Ret result; body_runs := 1 |}
              end
          end
      end
  end.

(** The bound arguments whose parameter has an annotation. *)
Definition annotated (f : func) (bound : list (string * value)) : list (string * value) :=
  List.filter (fun p => bool_decide (is_Some (annotations f !! fst p))) bound.

(** Every annotated bound argument passes the wrapper's instance test. *)
Definition arguments_are_instances (f : func) (bound : list (string * value)) : Prop :=
  forall name v a, (name, v) ∈ bound -> annotations f !! name = Some a ->
    isinstance v a = Ret true.

Definition result_is_instance (f : func) (r : value) : Prop :=
  forall a, annotations f !! "return" = Some a -> isinstance r a = Ret true.

(** The annotation is a class: [isinstance] against it answers a boolean
    and it has a [__name__]. *)
Definition is_class (a : annot) : Prop :=
  (forall v, returns (isinstance v a) = true) /\ is_Some (type_name a).

End EnforceTypes.

Arguments func : clear implicits.

(** A small universe of Python objects for concrete calls. *)
Module Py.

Inductive pyclass : Type := CObject | CInt | CBool | CStr | CFloat | CNoneType.

Inductive value : Type :=
| VInt (z : Z)
| VBool (b : bool)
| VStr (s : string)
| VFloat (mantissa exponent : Z)
| VNone.

(** Annotation objects: a class, the object [None] (as in [-> None]), or a
    tuple of classes. *)
Inductive annot : Type :=
| AClass (c : pyclass)
| ANone
| ATuple (cs : list pyclass).

Definition type_of (v : value) : pyclass :=
  match v with
  | VInt _ => CInt
  | VBool _ => CBool
  | VStr _ => CStr
  | VFloat _ _ => CFloat
  | VNone => CNoneType
  end.

(** [issubclass]: [bool] derives from [int], everything from [object]. *)
Definition issubclass (c d : pyclass) : bool :=
  match c, d with
  | _, CObject => true
  | CInt, CInt | CBool, CBool | CStr, CStr | CFloat, CFloat
  | CNoneType, CNoneType => true
  | CBool, CInt => true
  | _, _ => false
  end.

Definition isinstance (v : value) (a : annot) : res bool :=
  match a with
  | AClass c => Ret (issubclass (type_of v) c)
  | ANone => Raise TypeError
  | ATuple cs => Ret (existsb (issubclass (type_of v)) cs)
  end.

Definition class_name (c : pyclass) : string :=
  match c with
  | CObject => "object" | CInt => "int" | CBool => "bool" | CStr => "str"
  | CFloat => "float" | CNoneType => "NoneType"
  end.

Definition type_name (a : annot) : option string :=
  match a with
  | AClass c => Some (class_name c)
  | ANone | ATuple _ => None
  end.

(** A value is acceptable for a type hint: an instance of the class, [None]
    for the hint [None], an instance of one of the classes of a tuple. *)
Definition hint_accepts (a : annot) (v : value) : bool :=
  match a with
  | AClass c => issubclass (type_of v) c
  | ANone => match v with VNone => true | _ => false end
  | ATuple cs => existsb (issubclass (type_of v)) cs
  end.

(** Binding of a call with positional arguments only to parameters without
    defaults. *)
Definition bind_positional (params : list string) (c : list value)
  : res (list (string * value)) :=
  if Nat.eqb (List.length params) (List.length c)
  then Ret (zip params c) else Raise TypeError.

(** [def greet(name: str, age: int) -> str], the docstring's example; the
    body's text is abbreviated to its first argument. *)
Definition greet : func value annot (list value) :=
  {| annotations :=
       <["name" := AClass CStr]> (<["age" := AClass CInt]> (<["return" := AClass CStr]> ∅));
     bind_arguments := bind_positional ["name"; "age"];
     run_body := fun c => match c with
                          | [VStr n; _] => Ret (VStr ("Hello, " ++ n))
                          | _ => Raise TypeError
                          end |}.

(** [def tick(n: int) -> None: return None] *)
Definition tick : func value annot (list value) :=
  {| annotations := <["n" := AClass CInt]> (<["return" := ANone]> ∅);
     bind_arguments := bind_positional ["n"];
     run_body := fun _ => Ret VNone |}.

(** [def show(x: (int, str), verbose): return x] *)
Definition show : func value annot (list value) :=
  {| annotations := <["x" := ATuple [CInt; CStr]]> ∅;
     bind_arguments := bind_positional ["x"; "verbose"];
     run_body := fun c => match c with x :: _ => Ret x | [] => Raise TypeError end |}.

(** The call is well typed and the result fits the return hint. *)
Definition well_typed_call (f : func value annot (list value)) (c : list value)
    (r : value) : Prop :=
  exists bound,
    bind_arguments f c = Ret bound /\
    (forall name v a, (name, v) ∈ bound -> annotations f !! name = Some a ->
       hint_accepts a v = true) /\
    run_body f c = Ret r /\
    (forall a, annotations f !! "return" = Some a -> hint_accepts a r = true).

End Py.

(* ===================================================================== *)
(** ** Concrete scenarios *)
(* ===================================================================== *)

Local Open Scope list_scope.

Definition lock_args (sender : string) (amount target : Z) : option event_args :=
  Some {| arg_from := Some sender; arg_amount := Some amount;
          arg_toChainId := Some target |}.

(** The spec's end-to-end event: amount 100 for chain 80001. *)
Definition ev_a : event :=
  {| transactionHash := [Byte.x0a]; args := lock_args "0xfeed" 100 80001;
     blockNumber := 5; logIndex := 0 |}.

(** The same lock aimed at chain 1. *)
Definition ev_other_chain : event :=
  {| transactionHash := [Byte.x0b]; args := lock_args "0xfeed" 100 1;
     blockNumber := 5; logIndex := 1 |}.

(** An event without 'amount'. *)
Definition ev_no_amount : event :=
  {| transactionHash := [Byte.x0c];
     args := Some {| arg_from := Some "0xfeed"; arg_amount := None;
                     arg_toChainId := Some 80001 |};
     blockNumber := 6; logIndex := 0 |}.

(** The destination node answers 80001, the oracle answers, the write
    succeeds. *)
Definition env_ok : event_env :=
  {| dest_chain_id := Ret 80001; gas_oracle := Ret (Some "20"); flush := WriteOk |}.

Definition env_flush (w : write_outcome) : event_env :=
  {| dest_chain_id := Ret 80001; gas_oracle := Ret (Some "20"); flush := w |}.

(** A pass in which the node reports [height] and the filter returns
    [events]. *)
Definition cycle_ok (height : Z) (events : list event) : cycle_env :=
  {| block_number := Ret height; entries := fun _ _ => Ret events;
     event_envs := fun _ => env_ok |}.

(** A pass in which the height query fails. *)
Definition cycle_height_fails : cycle_env :=
  {| block_number := Raise (OtherError "ConnectionError");
     entries := fun _ _ => Ret []; event_envs := fun _ => env_ok |}.

(** A pass in which the log query fails. *)
Definition cycle_scan_fails (height : Z) : cycle_env :=
  {| block_number := Ret height;
     entries := fun _ _ => Raise (OtherError "Timeout");
     event_envs := fun _ => env_ok |}.

(** Ascending order on (blockNumber, logIndex). *)
Definition position_le (a b : event) : Prop :=
  blockNumber a < blockNumber b \/
  (blockNumber a = blockNumber b /\ logIndex a <= logIndex b).

Definition scan_ordered (events : list event) : Prop := Sorted position_le events.

(** "Any of sender, amount, targetChainId absent or zero-valued/empty". *)
Definition malformed (ev : event) : Prop :=
  let sender := args ev ≫= arg_from in
  let amount := args ev ≫= arg_amount in
  let target := args ev ≫= arg_toChainId in
  (sender = None \/ sender = Some "") \/
  (amount = None \/ amount = Some 0) \/
  (target = None \/ target = Some 0).

(** All three fields are present. *)
Definition fields_present (ev : event) (sender : string) (amount target : Z) : Prop :=
  args ev ≫= arg_from = Some sender /\
  args ev ≫= arg_amount = Some amount /\
  args ev ≫= arg_toChainId = Some target.

(** The states [process_event] passes through: after the call is recorded,
    after the "found new event" line, and after the gas oracle has answered on
    the accepted path. *)
Definition after_entry (ev : event) (s : state) : state := add_action (Entered ev) s.

Definition after_found (ev : event) (s : state) : state :=
  add_action (Logged INFO (MsgFoundNew (hex (transactionHash ev)))) (after_entry ev s).

Definition after_oracle (env : event_env) (ev : event) (sender : string) (amount : Z)
    (s : state) : res (option string) * state :=
  _get_current_gas_price_from_oracle (gas_oracle env)
    (add_action (Logged INFO (MsgProcessingLock amount sender)) (after_found ev s)).

(** [if events: for ... else: logging.info(...)] of [listen]. *)
Definition handle_entries (rt : runtime) (envs : nat -> event_env)
    (from_block to_block : Z) (events : list event) : M unit :=
  match events with
  | [] => log INFO (MsgNoEvents from_block to_block)
  | _ :: _ => process_events rt envs 0 events
  end.

(** The five ways the [try] of one pass can go, with the outcome and the
    state each leaves. *)
Inductive try_view (rt : runtime) (env : cycle_env) (s : state)
  : res unit * state -> Prop :=
| height_query_failed e :
    block_number env = Raise e ->
    try_view rt env s
      (Ret tt,
       add_action (Slept (poll_interval s))
         (add_action (Logged WARNING MsgNoLatestBlock)
            (add_action (Logged ERROR (MsgHeightFailed e)) s)))
| nothing_new latest :
    block_number env = Ret latest ->
    latest <= last_processed_block s ->
    try_view rt env s
      (Ret tt,
       add_action (Slept (poll_interval s))
         (add_action (Logged DEBUG MsgNoNewBlocks) s))
| scan_failed latest e :
    block_number env = Ret latest ->
    last_processed_block s < latest ->
    entries env (last_processed_block s + 1) latest = Raise e ->
    try_view rt env s
      (Raise e,
       add_action (Logged INFO (MsgScanning (last_processed_block s + 1) latest)) s)
| processing_aborted latest events e s1 :
    block_number env = Ret latest ->
    last_processed_block s < latest ->
    entries env (last_processed_block s + 1) latest = Ret events ->
    handle_entries rt (event_envs env) (last_processed_block s + 1) latest events
      (add_action (Logged INFO (MsgScanning (last_processed_block s + 1) latest)) s)
    = (Raise e, s1) ->
    try_view rt env s (Raise e, s1)
| range_done latest events s1 :
    block_number env = Ret latest ->
    last_processed_block s < latest ->
    entries env (last_processed_block s + 1) latest = Ret events ->
    handle_entries rt (event_envs env) (last_processed_block s + 1) latest events
      (add_action (Logged INFO (MsgScanning (last_processed_block s + 1) latest)) s)
    = (Ret tt, s1) ->
    try_view rt env s
      (Ret tt, add_action (Slept (poll_interval s1)) (set_last_processed_block latest s1)).

(* ===================================================================== *)
(** ** Start-up: connectors, the listener's constructor and the main block *)
(* ===================================================================== *)

(** The log lines and prints of the start-up code, one constructor per
    logging call. *)
Inductive boot_message : Type :=
| BootConnected (name url : string) (chain : Z)
| BootContractCreated (address name : string)
| BootContractFailed (e : exn)
| BootStartConfigured (block : Z)
| BootStartLatest (block : Z)
| BootStartUnavailable
| BootListening (address : string)
| BootPlaceholder
| BootConnectionError (e : exn)
| BootFatal (e : exn).

Inductive boot_action : Type :=
| BootLogged (l : level) (m : boot_message)
| BootPrinted.

(** How a piece of start-up code ends: it returns, it raises an exception
    (a subclass of Exception), or [exit(code)] raises SystemExit, which no
    handler of the file catches. *)
Inductive ending (A : Type) : Type :=
| Returned (a : A)
| Raised (e : exn)
| Exited (code : Z).
Arguments Returned {A} a.
Arguments Raised {A} e.
Arguments Exited {A} code.

(** The process during start-up: the listener's state as before, and the
    lines of the start-up code, oldest first, in a log of their own. *)
Record process : Type := {
  core : state;
  console : list boot_action
}.

Definition MB (A : Type) : Type := process -> ending A * process.

Definition retB {A} (a : A) : MB A := fun p => (Returned a, p).

Definition bindB {A B} (m : MB A) (f : A -> MB B) : MB B := fun p =>
  match m p with
  | (Returned a, p') => f a p'
  | (Raised e, p') => (Raised e, p')
  | (Exited c, p') => (Exited c, p')
  end.

Declare Scope boot_scope.
Delimit Scope boot_scope with boot.
Notation "x ← y ; z" := (bindB y (fun x => z))
  (at level 20, y at level 100, z at level 200, only parsing) : boot_scope.
Notation "y ;; z" := (bindB y (fun _ => z))
  (at level 100, z at level 200, only parsing, right associativity) : boot_scope.

Definition raiseB {A} (e : exn) : MB A := fun p => (Raised e, p).

(** [exit(code)] *)
Definition exitB {A} (code : Z) : MB A := fun p => (Exited code, p).

Definition liftR {A} (r : res A) : MB A := fun p =>
  match r with
  | Ret a => (Returned a, p)
  | Raise e => (Raised e, p)
  end.

(** A method of the listener's objects, run on the listener's state. *)
Definition liftM {A} (m : M A) : MB A := fun p =>
  match m (core p) with
  | (Ret a, s') => (Returned a, {| core := s'; console := console p |})
  | (Raise e, s') => (Raised e, {| core := s'; console := console p |})
  end.

Definition logB (l : level) (m : boot_message) : MB unit := fun p =>
  (Returned tt, {| core := core p; console := console p ++ [BootLogged l m] |}).

Definition printB : MB unit := fun p =>
  (Returned tt, {| core := core p; console := console p ++ [BootPrinted] |}).

(** [try: m except Exception as e: h e].  SystemExit is not an Exception. *)
Definition try_exceptB {A} (m : MB A) (h : exn -> MB A) : MB A := fun p =>
  match m p with
  | (Raised e, p') => h e p'
  | r => r
  end.

(** One entry of CONFIG for a chain (None: the value None). *)
Record chain_config : Type := {
  chain_name : string;
  rpc_url : string;
  bridge_contract_address : option string;
  bridge_contract_abi : option string
}.

(** [config['listener']['start_block']]: an int, or anything else (the string
    'latest'). *)
Inductive start_block_config : Type :=
| StartBlock (block : Z)
| StartOther (text : string).

Record config : Type := {
  source_chain : chain_config;
  destination_chain : chain_config;
  start_block : start_block_config;
  poll_interval_seconds : N
}.

(** CONFIG as shipped. *)
Definition CONFIG : config :=
  {| source_chain :=
       {| chain_name := "SourceChain-Goerli";
          rpc_url := "https://goerli.infura.io/v3/YOUR_INFURA_PROJECT_ID";
          bridge_contract_address := Some "0x...";
          bridge_contract_abi := Some "[]" |};
     destination_chain :=
       {| chain_name := "DestinationChain-Mumbai";
          rpc_url := "https://polygon-mumbai.infura.io/v3/YOUR_INFURA_PROJECT_ID";
          bridge_contract_address := Some "0x...";
          bridge_contract_abi := None |};
     start_block := StartOther "latest";
     poll_interval_seconds := 15 |}.

(** What a node answers while a connector is built: [web3.is_connected()],
    [web3.eth.chain_id], and the construction of the contract object
    ([Web3.to_checksum_address] and [web3.eth.contract]), which yields the
    contract's address. *)
Record connector_env : Type := {
  is_connected : bool;
  node_chain_id : res Z;
  contract_creation : res string
}.

(** A BlockchainConnector: its name and its contract (None, or the address
    of the contract object). *)
Record connector : Type := {
  connector_name : string;
  contract : option string
}.

(** [BlockchainConnector.__init__] *)
Definition BlockchainConnector_init (name url : string)
    (contract_address contract_abi : option string) (env : connector_env)
  : MB connector :=
  (if negb (is_connected env) then raiseB (OtherError "ConnectionError")
   else
     chain ← liftR (node_chain_id env);
     logB INFO (BootConnected name url chain);;
     if truthy_str contract_address && truthy_str contract_abi then
       try_exceptB
         (address ← liftR (contract_creation env);
          logB INFO (BootContractCreated address name);;
          retB {| connector_name := name; contract := Some address |})
         (fun e => logB ERROR (BootContractFailed e);; raiseB e)
     else retB {| connector_name := name; contract := None |})%boot.

(** [CrossChainEventListener._get_start_block] *)
Definition _get_start_block (cfg : start_block_config) (query : res Z) : MB Z :=
  (match cfg with
   | StartBlock block => logB INFO (BootStartConfigured block);; retB block
   | StartOther _ =>
       latest_block ← liftM (get_latest_block_number query);
       match latest_block with
       | Some block => logB INFO (BootStartLatest block);; retB block
       | None => logB ERROR BootStartUnavailable;; exitB 1
       end
   end)%boot.

Definition set_poll_interval (v : N) (s : state) : state :=
  {| processed_txs := processed_txs s; db_file := db_file s;
     last_processed_block := last_processed_block s;
     poll_interval := v; trace := trace s |}.

(** What the outside world answers during the listener's construction. *)
Record boot_env : Type := {
  source_node : connector_env;
  destination_node : connector_env;
  db_read : read_outcome;
  start_query : res Z
}.

(** The two connectors of a CrossChainEventListener; its other attributes
    are in the state. *)
Record listener : Type := {
  source_connector : connector;
  destination_connector : connector
}.

(** [CrossChainEventListener.__init__] *)
Definition CrossChainEventListener_init (rt : runtime) (cfg : config) (env : boot_env)
  : MB listener :=
  (src ← BlockchainConnector_init
           (chain_name (source_chain cfg)) (rpc_url (source_chain cfg))
           (bridge_contract_address (source_chain cfg))
           (bridge_contract_abi (source_chain cfg)) (source_node env);
   dst ← BlockchainConnector_init
           (chain_name (destination_chain cfg)) (rpc_url (destination_chain cfg))
           None None (destination_node env);
   liftM (StateDB_init rt (db_read env));;
   start ← _get_start_block (start_block cfg) (start_query env);
   liftM (modify (set_last_processed_block start));;
   liftM (modify (set_poll_interval (poll_interval_seconds cfg)));;
   retB {| source_connector := src; destination_connector := dst |})%boot.

(** [CrossChainEventListener.listen] as a whole: the first log line reads
    [self.source_connector.contract.address], then the loop runs; the loop
    is observed through its first passes. *)
Definition listen_method (rt : runtime) (l : listener) (envs : list cycle_env)
  : MB unit :=
  (match contract (source_connector l) with
   | None => raiseB AttributeError
   | Some address => logB INFO (BootListening address);; liftM (listen rt envs)
   end)%boot.

(** [needle in haystack] for strings. *)
Fixpoint contains (needle haystack : string) : bool :=
  String.prefix needle haystack ||
  match haystack with
  | EmptyString => false
  | String _ rest => contains needle rest
  end.

(** How the script ends: the process ends with an exit status, or it is
    still in the polling loop after the passes observed. *)
Inductive main_end : Type :=
| Ended (status : Z)
| Looping.

Definition is_connection_error (e : exn) : bool :=
  exn_eqb e (OtherError "ConnectionError").

(** The [if __name__ == '__main__':] block, for a given configuration. *)
Definition main (rt : runtime) (cfg : config) (env : boot_env)
    (envs : list cycle_env) (p : process) : main_end * process :=
  let banner := (printB;; printB;; printB;; printB;; printB)%boot in
  match banner p with
  | (_, p0) =>
      if contains "YOUR_INFURA_PROJECT_ID" (rpc_url (source_chain cfg)) then
        match logB ERROR BootPlaceholder p0 with
        | (_, p1) => (Ended 1, p1)
        end
      else
        match (l ← CrossChainEventListener_init rt cfg env;
               listen_method rt l envs)%boot p0 with
        | (Returned _, p1) => (Looping, p1)
        | (Exited code, p1) => (Ended code, p1)
        | (Raised e, p1) =>
            if is_connection_error e then
              match logB ERROR (BootConnectionError e) p1 with
              | (_, p2) => (Ended 0, p2)
              end
            else
              match logB ERROR (BootFatal e) p1 with
              | (_, p2) => (Ended 0, p2)
              end
        end
  end.

(** The process after the five lines that the main block prints first. *)
Definition after_banner (p : process) : process :=
  {| core := core p;
     console := console p ++ [BootPrinted; BootPrinted; BootPrinted; BootPrinted; BootPrinted] |}.

(** The start block that a configuration and the node's answer resolve to
    (None: [exit(1)]). *)
Definition resolved_start (cfg : start_block_config) (query : res Z) : option Z :=
  match cfg, query with
  | StartBlock block, _ => Some block
  | StartOther _, Ret block => Some block
  | StartOther _, Raise _ => None
  end.

(** A node that is connected and tells its chain id. *)
Definition node_answers (n : connector_env) : Prop :=
  is_connected n = true /\ returns (node_chain_id n) = true.

(** The contract's address and ABI are both given (not None, not empty). *)
Definition contract_configured (c : chain_config) : Prop :=
  truthy_str (bridge_contract_address c) && truthy_str (bridge_contract_abi c) = true.

(** The error line of the main block's handlers for an exception [e]. *)
Definition startup_error_line (e : exn) : boot_action :=
  BootLogged ERROR (if is_connection_error e then BootConnectionError e else BootFatal e).

Definition add_line (a : boot_action) (p : process) : process :=
  {| core := core p; console := console p ++ [a] |}.

(** A process that starts on a given file system. *)
Definition boot (file : option (list Byte.byte)) : process :=
  {| core := fresh file; console := [] |}.

(** A node that answers, and a start-up in which everything answers. *)
Definition node_ok (chain : Z) : connector_env :=
  {| is_connected := true; node_chain_id := Ret chain;
     contract_creation := Ret "0xB41d9e" |}.

Definition boot_ok (height : Z) : boot_env :=
  {| source_node := node_ok 5; destination_node := node_ok 80001;
     db_read := ReadOk; start_query := Ret height |}.

(** A configuration with real endpoints. *)
Definition config_ok (start : start_block_config) : config :=
  {| source_chain :=
       {| chain_name := "SourceChain-Goerli"; rpc_url := "https://rpc.example/goerli";
          bridge_contract_address := Some "0xb41d9e";
          bridge_contract_abi := Some "[]" |};
     destination_chain :=
       {| chain_name := "DestinationChain-Mumbai"; rpc_url := "https://rpc.example/mumbai";
          bridge_contract_address := Some "0xb41d9e";
          bridge_contract_abi := None |};
     start_block := start;
     poll_interval_seconds := 15 |}.

(** A configuration whose source chain has an empty contract address. *)
Definition config_no_address : config :=
  {| source_chain :=
       {| chain_name := "SourceChain-Goerli"; rpc_url := "https://rpc.example/goerli";
          bridge_contract_address := Some "";
          bridge_contract_abi := Some "[]" |};
     destination_chain := destination_chain (config_ok (StartBlock 7));
     start_block := StartBlock 7;
     poll_interval_seconds := 15 |}.

(* ===================================================================== *)
(** ** Further projections and the decorated function *)
(* ===================================================================== *)

(** The transaction ids of the "marked as processed" lines of a trace. *)
Definition marked (t : list action) : list string :=
  omap (fun a => match a with Logged INFO (MsgMarked tx) => Some tx | _ => None end) t.

(** The local bookkeeping of dispatches: as many dispatch lines as "marked
    as processed" lines, no transaction id marked twice, and every marked id
    in the dedup set. *)
Definition bookkeeping_ok (s : state) : Prop :=
  List.length (dispatches (trace s)) = List.length (marked (trace s)) /\
  NoDup (marked (trace s)) /\
  (forall tx, tx ∈ marked (trace s) -> HStr tx ∈ processed_txs s).

(** What a flush leaves in the file. *)
Definition flushed (rt : runtime) (w : write_outcome) (txs : gset hashable)
    (before : option (list Byte.byte)) : option (list Byte.byte) :=
  match w with
  | WriteOk => Some (snapshot_bytes rt txs)
  | OpenFails => before
  | FailsAfter n => Some (take n (snapshot_bytes rt txs))
  end.

(** The call left the bookkeeping alone. *)
Definition quiet (s s' : state) : Prop :=
  dispatches (trace s') = dispatches (trace s) /\
  marked (trace s') = marked (trace s) /\
  processed_txs s' = processed_txs s /\
  db_file s' = db_file s.

(** The call dispatched the event and marked its transaction. *)
Definition dispatched (rt : runtime) (env : event_env) (ev : event)
    (sender : string) (amount : Z) (s s' : state) : Prop :=
  dispatches (trace s')
  = dispatches (trace s) ++ [Logged INFO (MsgSimulationMint sender amount)] /\
  marked (trace s') = marked (trace s) ++ [hex (transactionHash ev)] /\
  processed_txs s' = {[HStr (hex (transactionHash ev))]} ∪ processed_txs s /\
  db_file s' = flushed rt (flush env)
                 ({[HStr (hex (transactionHash ev))]} ∪ processed_txs s) (db_file s).

(** [def answer() -> str: return 42] and [def plain(x, y): return x], for
    concrete calls. *)
Definition answer : func Py.value Py.annot (list Py.value) :=
  {| annotations := <["return" := Py.AClass Py.CStr]> ∅;
     bind_arguments := Py.bind_positional [];
     run_body := fun _ => Ret (Py.VInt 42) |}.

Definition plain : func Py.value Py.annot (list Py.value) :=
  {| annotations := ∅;
     bind_arguments := Py.bind_positional ["x"; "y"];
     run_body := fun c => match c with x :: _ => Ret x | [] => Raise TypeError end |}.

(** The function object that [enforce_types(f)] returns: [functools.wraps]
    copies [__annotations__] and makes [inspect.signature] report the
    signature of [f]; calling it runs the wrapper. *)
Definition decorated {value annot call : Type}
    (isinstance : value -> annot -> res bool) (type_name : annot -> option string)
    (f : func value annot call) : func value annot call :=
  {| annotations := annotations f;
     bind_arguments := bind_arguments f;
     run_body := fun c => call_outcome (enforce_types isinstance type_name f c) |}.

(* ===================================================================== *)
(** * Properties *)
(* ===================================================================== *)

Ltac unfold_py :=
  unfold exec, outcome, sleep, log, emit, gets, modify, lift, raise,
    try_except, bind, ret in *.

(** ** Projections of a trace *)

Lemma dispatches_app t u : dispatches (t ++ u) = dispatches t ++ dispatches u.
Proof. apply List.filter_app. Qed.

Lemma entered_app t u : entered (t ++ u) = entered t ++ entered u.
Proof. apply omap_app. Qed.

Lemma sleeps_app t u : sleeps (t ++ u) = sleeps t ++ sleeps u.
Proof. apply omap_app. Qed.

Lemma dispatches_cons a t :
  dispatches (a :: t) = (if is_dispatch a then [a] else []) ++ dispatches t.
Proof. unfold dispatches. cbn. destruct (is_dispatch a); reflexivity. Qed.

Lemma entered_cons a t :
  entered (a :: t) = match a with Entered e => [e] | _ => [] end ++ entered t.
Proof. destruct a; reflexivity. Qed.

Lemma sleeps_cons a t :
  sleeps (a :: t) = match a with Slept n => [n] | _ => [] end ++ sleeps t.
Proof. destruct a; reflexivity. Qed.

Lemma trace_add_action a s : trace (add_action a s) = trace s ++ [a].
Proof. reflexivity. Qed.

Global Arguments dispatches : simpl never.
Global Arguments entered : simpl never.
Global Arguments sleeps : simpl never.

Ltac trace_simpl :=
  repeat (progress (cbn;
    rewrite ?dispatches_app, ?entered_app, ?sleeps_app,
      ?dispatches_cons, ?entered_cons, ?sleeps_cons, ?app_nil_r, <- ?app_assoc));
  change (dispatches []) with (@nil action) in *;
  change (entered []) with (@nil event) in *;
  change (sleeps []) with (@nil N) in *;
  cbn; rewrite ?app_nil_r.

(** ** StateDB *)

Lemma is_processed_spec tx s :
  is_processed tx s = (Ret (bool_decide (HStr tx ∈ processed_txs s)), s).
Proof. reflexivity. Qed.

Lemma _save_returns rt w s : outcome (_save rt w) s = Ret tt.
Proof. destruct w; reflexivity. Qed.

Lemma _save_processed_txs rt w s :
  processed_txs (exec (_save rt w) s) = processed_txs s.
Proof. destruct w; reflexivity. Qed.

Lemma _save_frame rt w s :
  last_processed_block (exec (_save rt w) s) = last_processed_block s /\
  poll_interval (exec (_save rt w) s) = poll_interval s.
Proof. destruct w; split; reflexivity. Qed.

Lemma _save_trace rt w s :
  trace (exec (_save rt w) s) =
  trace s ++ match w with WriteOk => [] | _ => [Logged ERROR MsgSaveError] end.
Proof. destruct w; cbn; rewrite ?app_nil_r; reflexivity. Qed.

Lemma _save_db_file rt w s :
  db_file (exec (_save rt w) s) =
  match w with
  | WriteOk => Some (snapshot_bytes rt (processed_txs s))
  | OpenFails => db_file s
  | FailsAfter n => Some (take n (snapshot_bytes rt (processed_txs s)))
  end.
Proof. destruct w; reflexivity. Qed.

Lemma mark_as_processed_run rt w tx s :
  mark_as_processed rt w tx s =
  (Ret tt,
   add_action (Logged INFO (MsgMarked tx))
     (exec (_save rt w) (set_processed_txs ({[HStr tx]} ∪ processed_txs s) s))).
Proof. destruct w; reflexivity. Qed.

(** ** process_event, path by path *)

Section ProcessEvent.
Context (rt : runtime).

Lemma process_event_seen env ev s :
  HStr (hex (transactionHash ev)) ∈ processed_txs s ->
  process_event rt env ev s =
  (Ret tt,
   add_action (Logged DEBUG (MsgSkipProcessed (hex (transactionHash ev))))
     (after_entry ev s)).
Proof.
  intros Hin. unfold process_event, is_processed. unfold_py. cbn.
  rewrite bool_decide_true by exact Hin. reflexivity.
Qed.

Lemma process_event_malformed env ev s :
  HStr (hex (transactionHash ev)) ∉ processed_txs s ->
  truthy_str (args ev ≫= arg_from) && truthy_int (args ev ≫= arg_amount)
    && truthy_int (args ev ≫= arg_toChainId) = false ->
  process_event rt env ev s =
  (Ret tt,
   add_action (Logged ERROR (MsgMalformed (hex (transactionHash ev))))
     (after_found ev s)).
Proof.
  intros Hnin Hfalsy. unfold process_event, is_processed. unfold_py. cbn.
  rewrite bool_decide_false by exact Hnin.
  destruct (args ev ≫= arg_from) as [sender|] eqn:Es;
    destruct (args ev ≫= arg_amount) as [amount|] eqn:Ea;
    destruct (args ev ≫= arg_toChainId) as [target|] eqn:Et;
    try reflexivity.
  rewrite Hfalsy. reflexivity.
Qed.

Lemma process_event_chain_query_raises env ev s sender amount target e :
  HStr (hex (transactionHash ev)) ∉ processed_txs s ->
  fields_present ev sender amount target ->
  truthy_str (Some sender) && truthy_int (Some amount) && truthy_int (Some target) = true ->
  dest_chain_id env = Raise e ->
  process_event rt env ev s = (Raise e, after_found ev s).
Proof.
  intros Hnin (Es & Ea & Et) Htruthy Hq. unfold process_event, is_processed.
  unfold_py. cbn. rewrite bool_decide_false by exact Hnin.
  rewrite Es, Ea, Et, Htruthy, Hq. reflexivity.
Qed.

Lemma process_event_other_chain env ev s sender amount target d :
  HStr (hex (transactionHash ev)) ∉ processed_txs s ->
  fields_present ev sender amount target ->
  truthy_str (Some sender) && truthy_int (Some amount) && truthy_int (Some target) = true ->
  dest_chain_id env = Ret d ->
  target <> d ->
  process_event rt env ev s =
  (Ret tt,
   add_action (Logged WARNING (MsgDifferentChain (hex (transactionHash ev)) target))
     (after_found ev s)).
Proof.
  intros Hnin (Es & Ea & Et) Htruthy Hq Hne. unfold process_event, is_processed.
  unfold_py. cbn. rewrite bool_decide_false by exact Hnin.
  rewrite Es, Ea, Et, Htruthy, Hq. cbn.
  destruct (Z.eqb_spec target d) as [->|_]; [contradiction|]. reflexivity.
Qed.

Lemma process_event_accepted env ev s sender amount target :
  HStr (hex (transactionHash ev)) ∉ processed_txs s ->
  fields_present ev sender amount target ->
  truthy_str (Some sender) && truthy_int (Some amount) && truthy_int (Some target) = true ->
  dest_chain_id env = Ret target ->
  process_event rt env ev s =
  match from_wei amount with
  | Raise e => (Raise e, after_found ev s)
  | Ret _ =>
      match after_oracle env ev sender amount s with
      | (Raise e, s1) => (Raise e, s1)
      | (Ret gas_price, s1) =>
          mark_as_processed rt (flush env) (hex (transactionHash ev))
            (add_action Printed
               (add_action (Logged INFO (MsgSimulationMint sender amount))
                  (add_action Printed
                     (add_action (Logged INFO (MsgOraclePrice gas_price)) s1))))
      end
  end.
Proof.
  intros Hnin (Es & Ea & Et) Htruthy Hq. unfold process_event, is_processed, after_oracle.
  unfold_py. cbn. rewrite bool_decide_false by exact Hnin.
  rewrite Es, Ea, Et, Htruthy, Hq. cbn. rewrite Z.eqb_refl. cbn.
  destruct (from_wei amount) as [[]|e]; [|reflexivity].
  destruct (gas_oracle env) as [price|e]; [reflexivity|].
  destruct (exn_eqb e RequestException); reflexivity.
Qed.

Lemma oracle_frame q s :
  let r := _get_current_gas_price_from_oracle q s in
  exists added,
    trace (snd r) = trace s ++ added /\
    dispatches added = [] /\ entered added = [] /\ sleeps added = [] /\
    processed_txs (snd r) = processed_txs s /\ db_file (snd r) = db_file s /\
    last_processed_block (snd r) = last_processed_block s /\
    poll_interval (snd r) = poll_interval s.
Proof.
  unfold _get_current_gas_price_from_oracle. unfold_py.
  destruct q as [p|e]; cbn.
  - exists []. rewrite app_nil_r. repeat split.
  - destruct (exn_eqb e RequestException); cbn.
    + exists [Logged WARNING MsgOracleUnavailable]. repeat split.
    + exists []. rewrite app_nil_r. repeat split.
Qed.

End ProcessEvent.

(** Either one of the three arguments is falsy, or all are present and
    truthy. *)
Lemma event_shape ev :
  truthy_str (args ev ≫= arg_from) && truthy_int (args ev ≫= arg_amount)
    && truthy_int (args ev ≫= arg_toChainId) = false \/
  exists sender amount target,
    fields_present ev sender amount target /\
    truthy_str (Some sender) && truthy_int (Some amount) && truthy_int (Some target) = true.
Proof.
  unfold fields_present.
  destruct (args ev ≫= arg_from) as [sender|]; [|left; reflexivity].
  destruct (args ev ≫= arg_amount) as [amount|];
    [|left; cbn; rewrite andb_false_r; reflexivity].
  destruct (args ev ≫= arg_toChainId) as [target|];
    [|left; cbn; rewrite andb_false_r; reflexivity].
  destruct (truthy_str (Some sender) && truthy_int (Some amount)
            && truthy_int (Some target)) eqn:E; [right|left; reflexivity].
  exists sender, amount, target. auto.
Qed.

Lemma malformed_falsy ev :
  malformed ev <->
  truthy_str (args ev ≫= arg_from) && truthy_int (args ev ≫= arg_amount)
    && truthy_int (args ev ≫= arg_toChainId) = false.
Proof.
  unfold malformed.
  destruct (args ev ≫= arg_from) as [sender|];
    destruct (args ev ≫= arg_amount) as [amount|];
    destruct (args ev ≫= arg_toChainId) as [target|]; cbn;
    rewrite ?andb_false_r; try (split; [reflexivity | tauto]).
  destruct (String.eqb_spec sender ""), (Z.eqb_spec amount 0), (Z.eqb_spec target 0);
    subst; cbn; split; try reflexivity; try discriminate; intros; try tauto;
    try (left; right; reflexivity);
    try (right; left; right; reflexivity);
    try (right; right; right; reflexivity).
  intuition congruence.
Qed.

(** What a call of [process_event] can and cannot touch: it appends to the
    trace (first the record of the call), never sleeps, never moves the
    block cursor or the poll interval, and never removes a member of the
    dedup set. *)
Lemma process_event_frame rt env ev s :
  let s' := exec (process_event rt env ev) s in
  (exists added, trace s' = trace s ++ Entered ev :: added /\
                 entered added = [] /\ sleeps added = []) /\
  last_processed_block s' = last_processed_block s /\
  poll_interval s' = poll_interval s /\
  processed_txs s ⊆ processed_txs s'.
Proof.
  cbn zeta. unfold exec.
  destruct (decide (HStr (hex (transactionHash ev)) ∈ processed_txs s)) as [Hin|Hnin].
  { rewrite (process_event_seen rt env ev s Hin). cbn. split; [|auto].
    eexists. split; [rewrite <- app_assoc; reflexivity|]. split; reflexivity. }
  destruct (event_shape ev) as [Hfalsy|(sender & amount & target & Hp & Ht)].
  { rewrite (process_event_malformed rt env ev s Hnin Hfalsy). cbn. split; [|auto].
    eexists. split; [rewrite <- !app_assoc; reflexivity|]. split; reflexivity. }
  destruct (dest_chain_id env) as [d|e] eqn:Hq.
  2:{ rewrite (process_event_chain_query_raises rt env ev s _ _ _ e Hnin Hp Ht Hq).
      cbn. split; [|auto].
      eexists. split; [rewrite <- !app_assoc; reflexivity|]. split; reflexivity. }
  destruct (decide (target = d)) as [->|Hne].
  2:{ rewrite (process_event_other_chain rt env ev s _ _ _ d Hnin Hp Ht Hq Hne).
      cbn. split; [|auto].
      eexists. split; [rewrite <- !app_assoc; reflexivity|]. split; reflexivity. }
  rewrite (process_event_accepted rt env ev s _ _ _ Hnin Hp Ht Hq).
  destruct (from_wei amount) as [[]|e].
  2:{ cbn. split; [|auto].
      eexists. split; [rewrite <- !app_assoc; reflexivity|]. split; reflexivity. }
  unfold after_oracle.
  pose proof (oracle_frame (gas_oracle env)
                (add_action (Logged INFO (MsgProcessingLock amount sender))
                   (after_found ev s))) as Ho.
  cbn zeta in Ho.
  destruct (_get_current_gas_price_from_oracle _ _) as [[gas|e] s1].
  - cbn [snd] in Ho.
    destruct Ho as (added & Htr & _ & Hen & Hsl & Htx & _ & Hlast & Hpoll).
    cbn in Htr, Htx, Hlast, Hpoll.
    rewrite mark_as_processed_run. cbn.
    rewrite _save_trace, (proj1 (_save_frame _ _ _)), (proj2 (_save_frame _ _ _)),
      _save_processed_txs. cbn. rewrite Htr, Htx, Hlast, Hpoll.
    split; [|split; [reflexivity|split; [reflexivity|apply union_subseteq_r]]].
    eexists. split; [rewrite <- !app_assoc; cbn; reflexivity|].
    destruct (flush env); trace_simpl; rewrite Hen, Hsl; split; reflexivity.
  - cbn [snd] in Ho.
    destruct Ho as (added & Htr & _ & Hen & Hsl & Htx & _ & Hlast & Hpoll).
    cbn in Htr, Htx, Hlast, Hpoll.
    cbn. rewrite Htr, Htx, Hlast, Hpoll.
    split; [|auto].
    eexists. split; [rewrite <- !app_assoc; cbn; reflexivity|].
    trace_simpl. rewrite Hen, Hsl. split; reflexivity.
Qed.

(** ** The loop over the events of one scan *)

Lemma process_events_frame rt envs events : forall i s,
  let r := process_events rt envs i events s in
  last_processed_block (snd r) = last_processed_block s /\
  poll_interval (snd r) = poll_interval s /\
  processed_txs s ⊆ processed_txs (snd r) /\
  sleeps (trace (snd r)) = sleeps (trace s) /\
  exists handed,
    entered (trace (snd r)) = entered (trace s) ++ handed /\
    handed `prefix_of` events /\
    (returns (fst r) = true -> handed = events).
Proof.
  induction events as [|ev rest IH]; intros i s; cbn zeta.
  - cbn. repeat split; try reflexivity.
    exists []. rewrite app_nil_r. repeat split; reflexivity.
  - cbn [process_events]. unfold bind.
    pose proof (process_event_frame rt (envs i) ev s) as Hf.
    cbn zeta in Hf. unfold exec in Hf.
    destruct (process_event rt (envs i) ev s) as [[[]|e] s1]; cbn [snd fst] in *;
      destruct Hf as ((added & Htr & Hen & Hsl) & Hlast & Hpoll & Hsub).
    + specialize (IH (S i) s1). cbn zeta in IH.
      destruct (process_events rt envs (S i) rest s1) as [r s2]; cbn [snd fst] in *.
      destruct IH as (Hlast2 & Hpoll2 & Hsub2 & Hsl2 & handed & Hen2 & Hpre & Hall).
      split; [congruence|]. split; [congruence|]. split; [set_solver|].
      split.
      { rewrite Hsl2, Htr, sleeps_app, sleeps_cons, Hsl. cbn. rewrite app_nil_r.
        reflexivity. }
      exists (ev :: handed). split.
      { rewrite Hen2, Htr, entered_app, entered_cons, Hen. cbn.
        rewrite <- app_assoc. reflexivity. }
      split; [apply prefix_cons; exact Hpre|].
      intros Hr. rewrite (Hall Hr). reflexivity.
    + split; [exact Hlast|]. split; [exact Hpoll|]. split; [exact Hsub|].
      split.
      { rewrite Htr, sleeps_app, sleeps_cons, Hsl. cbn. rewrite app_nil_r.
        reflexivity. }
      exists [ev]. split.
      { rewrite Htr, entered_app, entered_cons, Hen. reflexivity. }
      split; [apply prefix_cons, prefix_nil|].
      cbn. discriminate.
Qed.

(** ** One pass of the polling loop *)

Lemma listen_try_unfold rt env s :
  listen_try rt env s =
  match block_number env with
  | Raise e =>
      (Ret tt,
       add_action (Slept (poll_interval s))
         (add_action (Logged WARNING MsgNoLatestBlock)
            (add_action (Logged ERROR (MsgHeightFailed e)) s)))
  | Ret latest =>
      if (latest >? last_processed_block s)%Z then
        let from_block := last_processed_block s + 1 in
        let scanning := add_action (Logged INFO (MsgScanning from_block latest)) s in
        match entries env from_block latest with
        | Raise e => (Raise e, scanning)
        | Ret events =>
            match handle_entries rt (event_envs env) from_block latest events scanning with
            | (Ret _, s1) =>
                (Ret tt, add_action (Slept (poll_interval s1))
                           (set_last_processed_block latest s1))
            | (Raise e, s1) => (Raise e, s1)
            end
        end
      else
        (Ret tt,
         add_action (Slept (poll_interval s))
           (add_action (Logged DEBUG MsgNoNewBlocks) s))
  end.
Proof.
  unfold listen_try, get_latest_block_number, handle_entries. unfold_py.
  destruct (block_number env) as [latest|e]; [|reflexivity]. cbv beta iota zeta.
  destruct (latest >? last_processed_block s)%Z; [|reflexivity].
  destruct (entries env (last_processed_block s + 1) latest) as [[|ev rest]|e];
    try reflexivity.
  match goal with
  | |- context [process_events ?a ?b ?c ?d ?e] =>
      destruct (process_events a b c d e) as [[[]|?] ?]
  end; reflexivity.
Qed.

Lemma listen_try_view rt env s : try_view rt env s (listen_try rt env s).
Proof.
  rewrite listen_try_unfold.
  destruct (block_number env) as [latest|e] eqn:Hq.
  2:{ apply height_query_failed. exact Hq. }
  destruct (Z.gtb_spec latest (last_processed_block s)) as [Hgt|Hle].
  2:{ apply (nothing_new rt env s latest Hq Hle). }
  cbv zeta.
  destruct (entries env (last_processed_block s + 1) latest) as [events|e] eqn:He.
  2:{ apply (scan_failed rt env s latest e Hq); [lia|exact He]. }
  destruct (handle_entries rt (event_envs env) (last_processed_block s + 1) latest events
              (add_action (Logged INFO (MsgScanning (last_processed_block s + 1) latest)) s))
    as [[[]|e] s1] eqn:Hrun.
  - apply (range_done rt env s latest events s1 Hq); [lia|exact He|exact Hrun].
  - apply (processing_aborted rt env s latest events e s1 Hq); [lia|exact He|exact Hrun].
Qed.

Lemma handle_entries_frame rt envs from_block to_block events s :
  let r := handle_entries rt envs from_block to_block events s in
  last_processed_block (snd r) = last_processed_block s /\
  poll_interval (snd r) = poll_interval s /\
  processed_txs s ⊆ processed_txs (snd r) /\
  sleeps (trace (snd r)) = sleeps (trace s) /\
  exists handed,
    entered (trace (snd r)) = entered (trace s) ++ handed /\
    handed `prefix_of` events /\
    (returns (fst r) = true -> handed = events).
Proof.
  destruct events as [|ev rest].
  - cbn. repeat split; try reflexivity.
    + trace_simpl. reflexivity.
    + exists []. trace_simpl. repeat split; reflexivity.
  - apply process_events_frame.
Qed.

Lemma listen_pass_unfold rt env s :
  listen_pass rt env s =
  match listen_try rt env s with
  | (Ret _, s1) => (Ret tt, s1)
  | (Raise e, s1) =>
      (Ret tt,
       add_action (Slept (poll_interval s1 * 2))
         (add_action (Logged INFO (MsgRestarting (poll_interval s1 * 2)))
            (add_action (Logged ERROR (MsgUnexpected e)) s1)))
  end.
Proof.
  unfold listen_pass. unfold_py.
  destruct (listen_try rt env s) as [[[]|e] s1]; reflexivity.
Qed.

Lemma listen_try_frame rt env s :
  let r := listen_try rt env s in
  poll_interval (snd r) = poll_interval s /\
  last_processed_block s <= last_processed_block (snd r) /\
  processed_txs s ⊆ processed_txs (snd r) /\
  (returns (fst r) = true ->
   sleeps (trace (snd r)) = sleeps (trace s) ++ [poll_interval s]) /\
  (returns (fst r) = false ->
   sleeps (trace (snd r)) = sleeps (trace s) /\
   last_processed_block (snd r) = last_processed_block s).
Proof.
  cbn zeta.
  destruct (listen_try_view rt env s)
    as [e Hq|latest Hq Hle|latest e Hq Hlt He|latest events e s1 Hq Hlt He Hrun
        |latest events s1 Hq Hlt He Hrun]; cbn [fst snd returns].
  - cbn. repeat split; try reflexivity; try lia; try discriminate.
    intros _. trace_simpl. reflexivity.
  - cbn. repeat split; try reflexivity; try lia; try discriminate.
    intros _. trace_simpl. reflexivity.
  - cbn. repeat split; try reflexivity; try lia; try discriminate.
    trace_simpl. reflexivity.
  - pose proof (handle_entries_frame rt (event_envs env) (last_processed_block s + 1)
                  latest events
                  (add_action (Logged INFO (MsgScanning (last_processed_block s + 1) latest)) s))
      as Hf.
    cbn zeta in Hf. rewrite Hrun in Hf. cbn [fst snd] in Hf.
    destruct Hf as (Hlast & Hpoll & Hsub & Hsl & _).
    cbn in Hlast, Hpoll, Hsub. rewrite trace_add_action, sleeps_app in Hsl.
    cbn in Hsl. rewrite sleeps_cons in Hsl. cbn in Hsl. rewrite app_nil_r in Hsl.
    repeat split; try assumption; try lia; try discriminate.
  - pose proof (handle_entries_frame rt (event_envs env) (last_processed_block s + 1)
                  latest events
                  (add_action (Logged INFO (MsgScanning (last_processed_block s + 1) latest)) s))
      as Hf.
    cbn zeta in Hf. rewrite Hrun in Hf. cbn [fst snd] in Hf.
    destruct Hf as (Hlast & Hpoll & Hsub & Hsl & _).
    cbn in Hlast, Hpoll, Hsub. rewrite trace_add_action, sleeps_app in Hsl.
    cbn in Hsl. rewrite sleeps_cons in Hsl. cbn in Hsl. rewrite app_nil_r in Hsl.
    cbn. repeat split; try assumption; try lia; try discriminate.
    intros _. rewrite sleeps_app, Hsl, Hpoll. reflexivity.
Qed.

Lemma listen_pass_frame rt env s :
  let s' := exec (listen_pass rt env) s in
  outcome (listen_pass rt env) s = Ret tt /\
  poll_interval s' = poll_interval s /\
  last_processed_block s <= last_processed_block s' /\
  sleeps (trace s') =
    sleeps (trace s) ++
    [if returns (outcome (listen_try rt env) s)
     then poll_interval s else (poll_interval s * 2)%N] /\
  (returns (outcome (listen_try rt env) s) = false ->
   last_processed_block s' = last_processed_block s).
Proof.
  cbn zeta. unfold exec, outcome. rewrite listen_pass_unfold.
  pose proof (listen_try_frame rt env s) as Hf. cbn zeta in Hf.
  destruct (listen_try rt env s) as [[[]|e] s1]; cbn [fst snd returns] in *;
    destruct Hf as (Hpoll & Hlast & _ & Hok & Hfail).
  - repeat split; try assumption; try discriminate. apply Hok. reflexivity.
  - destruct (Hfail eq_refl) as [Hsl Heq]. cbn.
    repeat split; try assumption; [|intros _; exact Heq].
    trace_simpl. rewrite Hsl, Hpoll. reflexivity.
Qed.

Lemma listen_monotone rt envs : forall s,
  last_processed_block s <= last_processed_block (exec (listen rt envs) s) /\
  poll_interval (exec (listen rt envs) s) = poll_interval s.
Proof.
  induction envs as [|env rest IH]; intros s.
  - cbn. split; [lia|reflexivity].
  - pose proof (listen_pass_frame rt env s) as Hp. cbn zeta in Hp.
    unfold exec, outcome in *. cbn [listen]. unfold bind.
    destruct (listen_pass rt env s) as [r s1]. cbn [fst snd] in Hp.
    destruct Hp as (Hr & Hpoll & Hlast & _). subst r.
    destruct (IH s1) as [Hle Hpi]. split; [lia|congruence].
Qed.

Lemma Sorted_prefix {A} (R : A -> A -> Prop) (l k : list A) :
  l `prefix_of` k -> Sorted R k -> Sorted R l.
Proof.
  intros [rest ->]. induction l as [|a l IH]; intros Hs; [constructor|].
  cbn in Hs. inversion Hs as [|? ? Hs' Hhd]; subst.
  constructor; [apply IH; exact Hs'|].
  destruct l as [|b l]; [constructor|].
  cbn in Hhd. inversion Hhd; subst. constructor. assumption.
Qed.

(** What one pass hands to [process_event]. *)
Lemma listen_pass_entered rt env s :
  let s' := exec (listen_pass rt env) s in
  exists handed,
    entered (trace s') = entered (trace s) ++ handed /\
    (forall latest events,
       block_number env = Ret latest ->
       entries env (last_processed_block s + 1) latest = Ret events ->
       handed `prefix_of` events /\
       (last_processed_block s < latest ->
        returns (outcome (listen_try rt env) s) = true -> handed = events)) /\
    (last_processed_block s' <> last_processed_block s ->
     exists latest events,
       block_number env = Ret latest /\
       last_processed_block s < latest /\
       entries env (last_processed_block s + 1) latest = Ret events /\
       last_processed_block s' = latest /\
       handed = events /\
       returns (outcome (listen_try rt env) s) = true).
Proof.
  cbn zeta. unfold exec, outcome. rewrite listen_pass_unfold.
  destruct (listen_try_view rt env s)
    as [e Hq|latest Hq Hle|latest e Hq Hlt He|latest events e s1 Hq Hlt He Hrun
        |latest events s1 Hq Hlt He Hrun]; cbn [fst snd returns].
  - exists []. split; [trace_simpl; reflexivity|]. split.
    + intros l evs Hq'. rewrite Hq in Hq'. discriminate Hq'.
    + cbn. intros H; contradiction.
  - exists []. split; [trace_simpl; reflexivity|]. split.
    + intros l evs Hq' _. rewrite Hq in Hq'. inversion Hq'; subst l.
      split; [apply prefix_nil|]. intros Hlt. lia.
    + cbn. intros H; contradiction.
  - exists []. split; [trace_simpl; reflexivity|]. split.
    + intros l evs _ _. split; [apply prefix_nil|]. intros _ Hok. discriminate Hok.
    + cbn. intros H; contradiction.
  - pose proof (handle_entries_frame rt (event_envs env) (last_processed_block s + 1)
                  latest events
                  (add_action (Logged INFO (MsgScanning (last_processed_block s + 1) latest)) s))
      as Hf.
    cbn zeta in Hf. rewrite Hrun in Hf. cbn [fst snd] in Hf.
    destruct Hf as (Hlast & _ & _ & _ & handed & Hen & Hpre & _).
    cbn in Hlast. rewrite trace_add_action, entered_app, entered_cons in Hen.
    cbn in Hen. change (entered []) with (@nil event) in Hen.
    rewrite app_nil_r in Hen.
    exists handed. split; [trace_simpl; rewrite Hen; reflexivity|].
    split.
    + intros l evs Hq' He'. rewrite Hq in Hq'. inversion Hq'; subst l.
      rewrite He in He'. inversion He'; subst evs.
      split; [exact Hpre|]. intros _ Hok. discriminate Hok.
    + cbn. intros Hne. contradiction.
  - pose proof (handle_entries_frame rt (event_envs env) (last_processed_block s + 1)
                  latest events
                  (add_action (Logged INFO (MsgScanning (last_processed_block s + 1) latest)) s))
      as Hf.
    cbn zeta in Hf. rewrite Hrun in Hf. cbn [fst snd returns] in Hf.
    destruct Hf as (Hlast & _ & _ & _ & handed & Hen & Hpre & Hall).
    cbn in Hlast. rewrite trace_add_action, entered_app, entered_cons in Hen.
    cbn in Hen. change (entered []) with (@nil event) in Hen.
    rewrite app_nil_r in Hen. specialize (Hall eq_refl). subst handed.
    exists events. split; [trace_simpl; rewrite Hen; reflexivity|].
    split.
    + intros l evs Hq' He'. rewrite Hq in Hq'. inversion Hq'; subst l.
      rewrite He in He'. inversion He'; subst evs.
      split; [reflexivity|]. intros _ _. reflexivity.
    + cbn. intros _. exists latest, events. repeat split; assumption.
Qed.

(** ** Loading what was saved *)

Lemma hash_all_json_of_hashable (hs : list hashable) :
  hash_all (json_of_hashable <$> hs) = Some hs.
Proof.
  induction hs as [|h hs IH]; [reflexivity|].
  cbn. rewrite IH. destruct h; reflexivity.
Qed.

Lemma set_of_snapshot (txs : gset hashable) :
  set_of_json (JArr (json_of_hashable <$> elements txs)) = Ret txs.
Proof.
  cbn. rewrite hash_all_json_of_hashable. f_equal. apply list_to_set_elements_L.
Qed.

Lemma _load_absent rt r s :
  db_file s = None -> _load rt r s = (Ret ∅, s).
Proof. intros H. unfold _load. unfold_py. rewrite H. reflexivity. Qed.

Lemma _load_read_fails rt s bytes :
  db_file s = Some bytes ->
  _load rt ReadFails s = (Ret ∅, add_action (Logged ERROR (MsgLoadError IOError)) s).
Proof. intros H. unfold _load. unfold_py. rewrite H. reflexivity. Qed.

Lemma _load_undecodable rt s bytes :
  db_file s = Some bytes ->
  text_decode rt bytes = None ->
  _load rt ReadOk s = (Raise UnicodeDecodeError, s).
Proof.
  intros H Hd. unfold _load, open_read. unfold_py. rewrite H. cbn. rewrite Hd.
  reflexivity.
Qed.

Lemma _load_unparsable rt s bytes text :
  db_file s = Some bytes ->
  text_decode rt bytes = Some text ->
  json_loads rt text = None ->
  _load rt ReadOk s =
  (Ret ∅, add_action (Logged ERROR (MsgLoadError JSONDecodeError)) s).
Proof.
  intros H Hd Hp. unfold _load, open_read, json_load. unfold_py. rewrite H. cbn.
  rewrite Hd. cbn. rewrite Hp. reflexivity.
Qed.

Lemma _load_parsed rt s bytes text data :
  db_file s = Some bytes ->
  text_decode rt bytes = Some text ->
  json_loads rt text = Some data ->
  _load rt ReadOk s =
  match data with
  | JObj pairs =>
      match set_of_json (dict_get "processed_txs" pairs (JArr [])) with
      | Ret txs => (Ret txs, s)
      | Raise e => (Raise e, s)
      end
  | _ => (Raise AttributeError, s)
  end.
Proof.
  intros H Hd Hp. unfold _load, open_read, json_load, data_get_processed_txs.
  unfold_py. rewrite H. cbn. rewrite Hd. cbn. rewrite Hp.
  destruct data as [| | | | |pairs]; try reflexivity.
  cbn. destruct (dict_get "processed_txs" pairs (JArr [])) as [| | | |items|kvs];
    try reflexivity.
  cbn. destruct (hash_all items); reflexivity.
Qed.

Lemma _load_snapshot rt txs s :
  codec_roundtrips rt txs ->
  db_file s = Some (snapshot_bytes rt txs) ->
  _load rt ReadOk s = (Ret txs, s).
Proof.
  intros [Hd Hp] H.
  rewrite (_load_parsed rt s _ _ _ H Hd Hp).
  unfold snapshot_doc. cbn [dict_get]. rewrite String.eqb_refl. cbn [dict_get].
  rewrite set_of_snapshot. reflexivity.
Qed.

Lemma mark_as_processed_state rt w tx s :
  let s' := exec (mark_as_processed rt w tx) s in
  outcome (mark_as_processed rt w tx) s = Ret tt /\
  processed_txs s' = {[HStr tx]} ∪ processed_txs s /\
  db_file s' =
    match w with
    | WriteOk => Some (snapshot_bytes rt ({[HStr tx]} ∪ processed_txs s))
    | OpenFails => db_file s
    | FailsAfter n => Some (take n (snapshot_bytes rt ({[HStr tx]} ∪ processed_txs s)))
    end /\
  trace s' =
    trace s ++ match w with WriteOk => [] | _ => [Logged ERROR MsgSaveError] end
            ++ [Logged INFO (MsgMarked tx)].
Proof.
  cbn zeta. unfold exec, outcome. rewrite mark_as_processed_run. cbn [fst snd].
  split; [reflexivity|]. destruct w; cbn; rewrite <- ?app_assoc; auto.
Qed.

(** Re-delivery of an event whose id is in the dedup set. *)
Lemma process_event_redelivered rt env ev s :
  HStr (hex (transactionHash ev)) ∈ processed_txs s ->
  let s' := exec (process_event rt env ev) s in
  outcome (process_event rt env ev) s = Ret tt /\
  dispatches (trace s') = dispatches (trace s) /\
  processed_txs s' = processed_txs s /\
  db_file s' = db_file s.
Proof.
  intros Hin. cbn zeta. unfold exec, outcome.
  rewrite (process_event_seen rt env ev s Hin). cbn [fst snd].
  repeat split. trace_simpl. reflexivity.
Qed.

(* ===================================================================== *)
(** * The claims *)
(* ===================================================================== *)

(** ** C1: dedup idempotence *)

(** C1, as stated, fails: after [mark_as_processed] the id need not be found
    by a fresh instance that reloads the file.  With the reference runtime,
    when the file cannot be opened for writing the flush is lost (the IOError
    is caught and logged), the file stays absent, and the fresh instance
    starts empty. *)
Lemma C1_reload_counterexample :
  ~ (forall (rt : runtime) (t : string) (w : write_outcome) (s : state),
       outcome (is_processed t)
         (exec (StateDB_init rt ReadOk)
            (fresh (db_file (exec (mark_as_processed rt w t) s)))) = Ret true).
Proof.
  intros H.
  specialize (H RefRuntime.rt "0x0a" OpenFails (fresh None)).
  vm_compute in H. discriminate H.
Qed.

(** C1 (amended): for every transaction id [t], after [mark_as_processed(t)]
    (whatever the flush does) [is_processed(t)] is true; when the flush
    succeeded, the file is readable and the runtime round-trips the snapshot,
    it is still true in a fresh instance loaded from the file; and an event
    whose id is [t], delivered again to [process_event], returns without a
    dispatch and leaves the dedup set and the file unchanged. *)
Theorem C1_dedup_idempotence (rt : runtime) (t : string) (w : write_outcome)
    (s : state) (env : event_env) (ev : event) :
  codec_roundtrips rt ({[HStr t]} ∪ processed_txs s) ->
  hex (transactionHash ev) = t ->
  let s' := exec (mark_as_processed rt w t) s in
  outcome (is_processed t) s' = Ret true /\
  (w = WriteOk ->
   outcome (is_processed t) (exec (StateDB_init rt ReadOk) (fresh (db_file s')))
   = Ret true) /\
  (let s'' := exec (process_event rt env ev) s' in
   outcome (process_event rt env ev) s' = Ret tt /\
   dispatches (trace s'') = dispatches (trace s') /\
   processed_txs s'' = processed_txs s' /\
   db_file s'' = db_file s').
Proof.
  intros Hcodec Hid. cbn zeta.
  destruct (mark_as_processed_state rt w t s) as (_ & Htxs & Hfile & _).
  cbn zeta in Htxs, Hfile.
  assert (Hin : HStr t ∈ processed_txs (exec (mark_as_processed rt w t) s)).
  { rewrite Htxs. apply elem_of_union_l, elem_of_singleton. reflexivity. }
  split; [|split].
  - unfold outcome. rewrite is_processed_spec. cbn [fst].
    rewrite bool_decide_true by exact Hin. reflexivity.
  - intros ->. rewrite Hfile.
    unfold StateDB_init, exec, outcome. unfold bind.
    rewrite (_load_snapshot rt ({[HStr t]} ∪ processed_txs s)); [|exact Hcodec|reflexivity].
    cbn. rewrite bool_decide_true by set_solver. reflexivity.
  - apply process_event_redelivered. rewrite Hid. exact Hin.
Qed.

Lemma C1_dedup_idempotence_witness :
  codec_roundtrips RefRuntime.rt ({[HStr (hex (transactionHash ev_a))]} ∪ processed_txs (fresh None)) /\
  outcome (is_processed (hex (transactionHash ev_a)))
    (exec (StateDB_init RefRuntime.rt ReadOk)
       (fresh (db_file (exec (mark_as_processed RefRuntime.rt WriteOk
                                (hex (transactionHash ev_a))) (fresh None)))))
  = Ret true.
Proof.
  assert (Hc : codec_roundtrips RefRuntime.rt
                 ({[HStr (hex (transactionHash ev_a))]} ∪ processed_txs (fresh None))).
  { split; vm_compute; reflexivity. }
  split; [exact Hc|].
  exact (proj1 (proj2 (C1_dedup_idempotence RefRuntime.rt (hex (transactionHash ev_a))
                         WriteOk (fresh None) env_ok ev_a Hc eq_refl)) eq_refl).
Defined.

(** ** C3: a failed flush *)

(** C3, as stated, fails: a flush that fails after the file has been opened
    for writing replaces the previous snapshot by a fragment of the new one,
    from which a fresh instance loads nothing. *)
Lemma C3_flush_counterexample :
  ~ (forall (rt : runtime) (t : string) (w : write_outcome) (s : state),
       w <> WriteOk ->
       db_file (exec (mark_as_processed rt w t) s) = db_file s).
Proof.
  intros H.
  specialize (H RefRuntime.rt "0x0b" (FailsAfter 10)
                (exec (mark_as_processed RefRuntime.rt WriteOk "0x0a") (fresh None))).
  assert (Hw : FailsAfter 10 <> WriteOk) by discriminate.
  specialize (H Hw). vm_compute in H. discriminate H.
Qed.

(** What the failed flush of [C3_flush_counterexample] leaves behind: the
    file is the first ten bytes of the new snapshot, and a fresh instance
    loads an empty set from it although "0x0a" had been persisted. *)
Lemma partial_write_reload :
  let before := exec (mark_as_processed RefRuntime.rt WriteOk "0x0a") (fresh None) in
  let after := exec (mark_as_processed RefRuntime.rt (FailsAfter 10) "0x0b") before in
  db_file after = Some (take 10 (snapshot_bytes RefRuntime.rt (processed_txs after))) /\
  outcome (is_processed "0x0a")
    (exec (StateDB_init RefRuntime.rt ReadOk) (fresh (db_file before))) = Ret true /\
  outcome (is_processed "0x0a")
    (exec (StateDB_init RefRuntime.rt ReadOk) (fresh (db_file after))) = Ret false /\
  logged ERROR (MsgLoadError JSONDecodeError)
    (trace (exec (StateDB_init RefRuntime.rt ReadOk) (fresh (db_file after)))).
Proof.
  cbn zeta. split; [reflexivity|]. split; [vm_compute; reflexivity|].
  split; [vm_compute; reflexivity|].
  unfold logged. vm_compute. apply list_elem_of_here.
Qed.

(** C3 (amended): if the flush fails because the file cannot be opened, the
    previously persisted snapshot is intact; if it fails after the file has
    been opened for writing, the file holds only the part of the new snapshot
    written so far.  In both cases the failure is logged at error level, the
    call returns, and the in-memory set holds the new id and answers every
    later [is_processed]. *)
Theorem C3_failed_flush (rt : runtime) (t : string) (w : write_outcome) (s : state) :
  w <> WriteOk ->
  let s' := exec (mark_as_processed rt w t) s in
  outcome (mark_as_processed rt w t) s = Ret tt /\
  logged ERROR MsgSaveError (trace s') /\
  processed_txs s' = {[HStr t]} ∪ processed_txs s /\
  (forall t', outcome (is_processed t') s'
              = Ret (bool_decide (HStr t' ∈ {[HStr t]} ∪ processed_txs s))) /\
  (w = OpenFails -> db_file s' = db_file s) /\
  (forall n, w = FailsAfter n ->
             db_file s' = Some (take n (snapshot_bytes rt (processed_txs s')))).
Proof.
  intros Hw. cbn zeta.
  destruct (mark_as_processed_state rt w t s) as (Hret & Htxs & Hfile & Htrace).
  cbn zeta in Htxs, Hfile, Htrace.
  split; [exact Hret|]. split; [|split; [exact Htxs|split; [|split]]].
  - unfold logged. rewrite Htrace. destruct w; [contradiction| |]; set_solver.
  - intros t'. unfold outcome. rewrite is_processed_spec. cbn [fst].
    rewrite Htxs. reflexivity.
  - intros ->. exact Hfile.
  - intros n ->. rewrite Hfile, Htxs. reflexivity.
Qed.

Lemma C3_failed_flush_witness :
  FailsAfter 10 <> WriteOk /\
  processed_txs (exec (mark_as_processed RefRuntime.rt (FailsAfter 10) "0x0b")
                   (exec (mark_as_processed RefRuntime.rt WriteOk "0x0a") (fresh None)))
  = {[HStr "0x0b"]} ∪ processed_txs
      (exec (mark_as_processed RefRuntime.rt WriteOk "0x0a") (fresh None)).
Proof.
  assert (Hw : FailsAfter 10 <> WriteOk) by discriminate.
  split; [exact Hw|].
  exact (proj1 (proj2 (proj2 (C3_failed_flush RefRuntime.rt "0x0b" (FailsAfter 10)
           (exec (mark_as_processed RefRuntime.rt WriteOk "0x0a") (fresh None)) Hw)))).
Defined.

(** ** C7: loading at start-up *)

Lemma StateDB_init_absent rt r s :
  db_file s = None ->
  StateDB_init rt r s =
  (Ret tt, add_action (Logged INFO (MsgStateDBInit 0)) (set_processed_txs ∅ s)).
Proof.
  intros H. unfold StateDB_init. unfold bind. rewrite (_load_absent rt r s H).
  reflexivity.
Qed.

Lemma StateDB_init_unparsable rt s bytes text :
  db_file s = Some bytes ->
  text_decode rt bytes = Some text ->
  json_loads rt text = None ->
  StateDB_init rt ReadOk s =
  (Ret tt,
   add_action (Logged INFO (MsgStateDBInit 0))
     (set_processed_txs ∅ (add_action (Logged ERROR (MsgLoadError JSONDecodeError)) s))).
Proof.
  intros H Hd Hp. unfold StateDB_init. unfold bind.
  rewrite (_load_unparsable rt s bytes text H Hd Hp). reflexivity.
Qed.

Lemma StateDB_init_unreadable rt s bytes :
  db_file s = Some bytes ->
  StateDB_init rt ReadFails s =
  (Ret tt,
   add_action (Logged INFO (MsgStateDBInit 0))
     (set_processed_txs ∅ (add_action (Logged ERROR (MsgLoadError IOError)) s))).
Proof.
  intros H. unfold StateDB_init. unfold bind.
  rewrite (_load_read_fails rt s bytes H). reflexivity.
Qed.

(** A file that is not valid text makes start-up fail, whatever the runtime. *)
Lemma StateDB_init_undecodable rt s bytes :
  db_file s = Some bytes ->
  text_decode rt bytes = None ->
  StateDB_init rt ReadOk s = (Raise UnicodeDecodeError, s).
Proof.
  intros H Hd. unfold StateDB_init. unfold bind.
  rewrite (_load_undecodable rt s bytes H Hd). reflexivity.
Qed.

(** So does a file that holds a JSON document other than an object. *)
Lemma StateDB_init_not_an_object rt s bytes text data :
  db_file s = Some bytes ->
  text_decode rt bytes = Some text ->
  json_loads rt text = Some data ->
  (forall pairs, data <> JObj pairs) ->
  StateDB_init rt ReadOk s = (Raise AttributeError, s).
Proof.
  intros H Hd Hp Hshape. unfold StateDB_init. unfold bind.
  rewrite (_load_parsed rt s bytes text data H Hd Hp).
  destruct data; try reflexivity. exfalso. eapply Hshape. reflexivity.
Qed.

(** C7: the code at its failing inputs.  With an absent file the store starts
    empty without a complaint, and with a file that is text but not JSON it
    logs an error and starts empty; but a file whose bytes are not valid
    UTF-8, and a file that holds the JSON document [[]], each make
    [StateDB.__init__] raise (UnicodeDecodeError, AttributeError): neither
    exception is among those [_load] catches, so start-up fails. *)
Theorem C7_load_on_init :
  StateDB_init RefRuntime.rt ReadOk (fresh None) =
    (Ret tt, add_action (Logged INFO (MsgStateDBInit 0)) (fresh None)) /\
  StateDB_init RefRuntime.rt ReadOk (fresh (Some (RefRuntime.encode "{ processed"))) =
    (Ret tt,
     add_action (Logged INFO (MsgStateDBInit 0))
       (add_action (Logged ERROR (MsgLoadError JSONDecodeError))
          (fresh (Some (RefRuntime.encode "{ processed"))))) /\
  StateDB_init RefRuntime.rt ReadOk (fresh (Some [Byte.xff; Byte.xfe])) =
    (Raise UnicodeDecodeError, fresh (Some [Byte.xff; Byte.xfe])) /\
  StateDB_init RefRuntime.rt ReadOk (fresh (Some (RefRuntime.encode "[]"))) =
    (Raise AttributeError, fresh (Some (RefRuntime.encode "[]"))).
Proof.
  split; [|split; [|split]].
  - apply StateDB_init_absent. reflexivity.
  - rewrite (StateDB_init_unparsable RefRuntime.rt _ (RefRuntime.encode "{ processed")
               "{ processed"); reflexivity.
  - apply (StateDB_init_undecodable RefRuntime.rt _ [Byte.xff; Byte.xfe]); reflexivity.
  - apply (StateDB_init_not_an_object RefRuntime.rt _ (RefRuntime.encode "[]") "[]"
             (JArr [])); try reflexivity.
    intros pairs. discriminate.
Qed.

(** ** C4: the chain filter *)

(** C4: for every event whose three fields are present and whose
    targetChainId is not the id answered by the destination chain,
    [process_event] logs no dispatch and leaves the dedup set and its file as
    they were. *)
Theorem C4_chain_filter (rt : runtime) (env : event_env) (ev : event) (s : state)
    (sender : string) (amount target : Z) :
  fields_present ev sender amount target ->
  dest_chain_id env <> Ret target ->
  let s' := exec (process_event rt env ev) s in
  dispatches (trace s') = dispatches (trace s) /\
  processed_txs s' = processed_txs s /\
  db_file s' = db_file s.
Proof.
  intros Hp Hne. cbn zeta. unfold exec.
  destruct (decide (HStr (hex (transactionHash ev)) ∈ processed_txs s)) as [Hin|Hnin].
  { rewrite (process_event_seen rt env ev s Hin). cbn [snd].
    repeat split. trace_simpl. reflexivity. }
  destruct (truthy_str (Some sender) && truthy_int (Some amount)
            && truthy_int (Some target)) eqn:Ht.
  2:{ destruct Hp as (Es & Ea & Et).
      rewrite (process_event_malformed rt env ev s Hnin); [|rewrite Es, Ea, Et; exact Ht].
      cbn [snd]. repeat split. trace_simpl. reflexivity. }
  destruct (dest_chain_id env) as [d|e] eqn:Hq.
  - assert (Hd : target <> d) by congruence.
    rewrite (process_event_other_chain rt env ev s _ _ _ d Hnin Hp Ht Hq Hd).
    cbn [snd]. repeat split. trace_simpl. reflexivity.
  - rewrite (process_event_chain_query_raises rt env ev s _ _ _ e Hnin Hp Ht Hq).
    cbn [snd]. repeat split. trace_simpl. reflexivity.
Qed.

Lemma C4_chain_filter_witness :
  fields_present ev_other_chain "0xfeed" 100 1 /\
  dest_chain_id env_ok <> Ret 1 /\
  dispatches (trace (exec (process_event RefRuntime.rt env_ok ev_other_chain) (fresh None)))
  = dispatches (trace (fresh None)).
Proof.
  assert (Hp : fields_present ev_other_chain "0xfeed" 100 1) by (repeat split).
  assert (Hne : dest_chain_id env_ok <> Ret 1) by discriminate.
  split; [exact Hp|]. split; [exact Hne|].
  exact (proj1 (C4_chain_filter RefRuntime.rt env_ok ev_other_chain (fresh None)
                  "0xfeed" 100 1 Hp Hne)).
Defined.

(** ** C5: malformed events *)

(** C5: for every event in which sender, amount or targetChainId is absent,
    zero or empty, [process_event] returns normally without a dispatch and
    without touching the dedup set or its file, and the loop over the scan's
    events goes on with the next event. *)
Theorem C5_malformed_rejection (rt : runtime) (envs : nat -> event_env) (i : nat)
    (ev : event) (rest : list event) (s : state) :
  malformed ev ->
  let s' := exec (process_event rt (envs i) ev) s in
  outcome (process_event rt (envs i) ev) s = Ret tt /\
  dispatches (trace s') = dispatches (trace s) /\
  processed_txs s' = processed_txs s /\
  db_file s' = db_file s /\
  process_events rt envs i (ev :: rest) s = process_events rt envs (S i) rest s'.
Proof.
  intros Hm. apply malformed_falsy in Hm. cbn zeta.
  unfold exec, outcome. cbn [process_events]. unfold bind.
  destruct (decide (HStr (hex (transactionHash ev)) ∈ processed_txs s)) as [Hin|Hnin].
  - rewrite (process_event_seen rt (envs i) ev s Hin). cbn [fst snd].
    repeat split. trace_simpl. reflexivity.
  - rewrite (process_event_malformed rt (envs i) ev s Hnin Hm). cbn [fst snd].
    repeat split. trace_simpl. reflexivity.
Qed.

Lemma C5_malformed_rejection_witness :
  malformed ev_no_amount /\
  processed_txs (exec (process_event RefRuntime.rt env_ok ev_no_amount) (fresh None))
  = processed_txs (fresh None).
Proof.
  assert (Hm : malformed ev_no_amount) by (right; left; left; reflexivity).
  split; [exact Hm|].
  exact (proj1 (proj2 (proj2 (C5_malformed_rejection RefRuntime.rt (fun _ => env_ok) 0
                                ev_no_amount [] (fresh None) Hm)))).
Defined.

(** ** C2: the sleep after a failed height query *)

(** C2, as stated, fails: in the pass in which the height query fails, the
    loop sleeps for the poll interval (15 s here), not for twice that. *)
Lemma C2_backoff_counterexample :
  ~ (forall (rt : runtime) (env : cycle_env) (s : state),
       returns (block_number env) = false ->
       sleeps (trace (exec (listen_pass rt env) s))
       = sleeps (trace s) ++ [(2 * poll_interval s)%N]).
Proof.
  intros H.
  specialize (H RefRuntime.rt cycle_height_fails (fresh None) eq_refl).
  vm_compute in H. discriminate H.
Qed.

(** C2 (amended): every pass of the loop sleeps exactly once.  When the
    height query fails the sleep lasts [poll_interval]; so does the sleep of
    every pass whose [try] ends without an exception.  Only a pass in which
    an exception reaches the catch-all handler sleeps [poll_interval * 2].
    The poll interval itself never changes, so the pass after a failed one,
    if it completes, again sleeps [poll_interval]. *)
Theorem C2_sleep_durations (rt : runtime) (env : cycle_env) (s : state) :
  let s' := exec (listen_pass rt env) s in
  poll_interval s' = poll_interval s /\
  (returns (block_number env) = false ->
   sleeps (trace s') = sleeps (trace s) ++ [poll_interval s]) /\
  (returns (outcome (listen_try rt env) s) = true ->
   sleeps (trace s') = sleeps (trace s) ++ [poll_interval s]) /\
  (returns (outcome (listen_try rt env) s) = false ->
   sleeps (trace s') = sleeps (trace s) ++ [(poll_interval s * 2)%N]) /\
  (forall env2,
     returns (outcome (listen_try rt env2) s') = true ->
     sleeps (trace (exec (listen rt [env; env2]) s))
     = sleeps (trace s') ++ [poll_interval s]).
Proof.
  cbn zeta.
  destruct (listen_pass_frame rt env s) as (Hret & Hpoll & _ & Hsl & _).
  cbn zeta in Hpoll, Hsl.
  split; [exact Hpoll|]. split; [|split; [|split]].
  - intros Hq. rewrite Hsl.
    unfold outcome. rewrite listen_try_unfold.
    destruct (block_number env); [discriminate Hq|]. reflexivity.
  - intros Hok. rewrite Hsl, Hok. reflexivity.
  - intros Hfail. rewrite Hsl, Hfail. reflexivity.
  - intros env2 Hok.
    destruct (listen_pass_frame rt env2 (exec (listen_pass rt env) s))
      as (_ & _ & _ & Hsl2 & _).
    cbn zeta in Hsl2. rewrite Hok, Hpoll in Hsl2.
    unfold exec, outcome in *. cbn [listen]. unfold bind, ret.
    destruct (listen_pass rt env s) as [r s1]. cbn [fst snd] in *. subst r.
    destruct (listen_pass rt env2 s1) as [[[]|e] s2]; cbn [fst snd] in *; exact Hsl2.
Qed.

(** ** C9: the height query never raises *)

(** C9: [get_latest_block_number] returns for every answer of the client: the
    height when there is one, None when the client raised.  A failed height
    query makes the pass take the [latest_block is None] branch (a warning,
    then a sleep of [poll_interval]); the catch-all handler is not entered. *)
Theorem C9_height_query_total :
  (forall (q : res Z) (s : state),
     exists v s',
       get_latest_block_number q s = (Ret v, s') /\
       (v = None <-> returns q = false) /\
       (forall n, q = Ret n -> v = Some n)) /\
  (forall (rt : runtime) (env : cycle_env) (s : state) (e : exn),
     block_number env = Raise e ->
     listen_try rt env s =
       (Ret tt,
        add_action (Slept (poll_interval s))
          (add_action (Logged WARNING MsgNoLatestBlock)
             (add_action (Logged ERROR (MsgHeightFailed e)) s))) /\
     listen_pass rt env s = listen_try rt env s).
Proof.
  split.
  - intros [n|e] s.
    + exists (Some n), s. repeat split; try discriminate.
      intros m Hm. inversion Hm. reflexivity.
    + exists None, (add_action (Logged ERROR (MsgHeightFailed e)) s).
      repeat split. intros n Hn. discriminate Hn.
  - intros rt env s e Hq.
    assert (Htry : listen_try rt env s =
                   (Ret tt,
                    add_action (Slept (poll_interval s))
                      (add_action (Logged WARNING MsgNoLatestBlock)
                         (add_action (Logged ERROR (MsgHeightFailed e)) s)))).
    { rewrite listen_try_unfold, Hq. reflexivity. }
    split; [exact Htry|].
    rewrite listen_pass_unfold, Htry. reflexivity.
Qed.

(** ** C6: the block cursor *)

(** C6: [last_processed_block] never decreases, over any number of passes.
    The loop over a scan's events does not touch it.  A pass whose [try]
    raises leaves it unchanged, so the same range is asked for again.  A pass
    that changes it asked for the range from the old value plus one to the
    reported height, handed every returned event to [process_event] without
    an exception, and set it to that height. *)
Theorem C6_monotone_progress (rt : runtime) :
  (forall envs s,
     last_processed_block s <= last_processed_block (exec (listen rt envs) s)) /\
  (forall envs i events s,
     last_processed_block (exec (process_events rt envs i events) s)
     = last_processed_block s) /\
  (forall env s,
     returns (outcome (listen_try rt env) s) = false ->
     last_processed_block (exec (listen_pass rt env) s) = last_processed_block s) /\
  (forall env s,
     let s' := exec (listen_pass rt env) s in
     last_processed_block s' <> last_processed_block s ->
     exists latest events,
       block_number env = Ret latest /\
       last_processed_block s < latest /\
       entries env (last_processed_block s + 1) latest = Ret events /\
       entered (trace s') = entered (trace s) ++ events /\
       returns (outcome (listen_try rt env) s) = true /\
       last_processed_block s' = latest).
Proof.
  split; [|split; [|split]].
  - intros envs s. apply listen_monotone.
  - intros envs i events s.
    exact (proj1 (process_events_frame rt envs events i s)).
  - intros env s Hfail.
    destruct (listen_pass_frame rt env s) as (_ & _ & _ & _ & Hsame).
    exact (Hsame Hfail).
  - intros env s. cbn zeta. intros Hmoved.
    destruct (listen_pass_entered rt env s) as (handed & Hen & _ & Hadv).
    cbn zeta in Hen, Hadv.
    destruct (Hadv Hmoved) as (latest & events & Hq & Hlt & He & Hlast & Hh & Hok).
    subst handed. exists latest, events. repeat split; assumption.
Qed.

(** ** C8: the order in which events are processed *)

(** C8, as stated, fails: the loop does not sort.  When the filter returns the
    entry at (block 5, log 1) before the entry at (block 5, log 0), they are
    handed to [process_event] in that order. *)
Lemma C8_ordering_counterexample :
  ~ (forall (rt : runtime) (env : cycle_env) (s : state) (handed : list event),
       entered (trace (exec (listen_pass rt env) s)) = entered (trace s) ++ handed ->
       scan_ordered handed).
Proof.
  intros H.
  specialize (H RefRuntime.rt (cycle_ok 5 [ev_other_chain; ev_a]) (fresh None)
                [ev_other_chain; ev_a]).
  assert (Hen : entered (trace (exec (listen_pass RefRuntime.rt
                                        (cycle_ok 5 [ev_other_chain; ev_a])) (fresh None)))
                = entered (trace (fresh None)) ++ [ev_other_chain; ev_a])
    by (vm_compute; reflexivity).
  specialize (H Hen). unfold scan_ordered in H.
  inversion H as [|? ? _ Hhd]; subst.
  inversion Hhd as [|? ? Hle]; subst.
  destruct Hle as [Hlt|[_ Hle]]; cbn in *; lia.
Qed.

(** C8 (amended): the events of a scanned range are handed to [process_event]
    in exactly the order in which the filter returned them: what one pass
    hands over is a prefix of the returned list, the whole list when the pass
    completes without an exception.  Hence the processing order is ascending
    in (blockNumber, logIndex) whenever the returned list is. *)
Theorem C8_processing_order (rt : runtime) (env : cycle_env) (s : state)
    (latest : Z) (events : list event) :
  block_number env = Ret latest ->
  entries env (last_processed_block s + 1) latest = Ret events ->
  let s' := exec (listen_pass rt env) s in
  exists handed,
    entered (trace s') = entered (trace s) ++ handed /\
    handed `prefix_of` events /\
    (last_processed_block s < latest ->
     returns (outcome (listen_try rt env) s) = true -> handed = events) /\
    (scan_ordered events -> scan_ordered handed).
Proof.
  intros Hq He. cbn zeta.
  destruct (listen_pass_entered rt env s) as (handed & Hen & Hrange & _).
  cbn zeta in Hen. exists handed. split; [exact Hen|].
  destruct (Hrange latest events Hq He) as [Hpre Hall].
  split; [exact Hpre|]. split; [exact Hall|].
  intros Hs. exact (Sorted_prefix _ _ _ Hpre Hs).
Qed.

Lemma C8_processing_order_witness :
  block_number (cycle_ok 5 [ev_a; ev_other_chain]) = Ret 5 /\
  entries (cycle_ok 5 [ev_a; ev_other_chain]) (last_processed_block (fresh None) + 1) 5
  = Ret [ev_a; ev_other_chain] /\
  exists handed,
    entered (trace (exec (listen_pass RefRuntime.rt (cycle_ok 5 [ev_a; ev_other_chain]))
                      (fresh None)))
    = entered (trace (fresh None)) ++ handed /\
    handed `prefix_of` [ev_a; ev_other_chain].
Proof.
  split; [reflexivity|]. split; [reflexivity|].
  destruct (C8_processing_order RefRuntime.rt (cycle_ok 5 [ev_a; ev_other_chain])
              (fresh None) 5 [ev_a; ev_other_chain] eq_refl eq_refl)
    as (handed & Hen & Hpre & _).
  exists handed. split; [exact Hen|exact Hpre].
Defined.

(** ** C10: enforce_types *)

Section EnforceTypesFacts.
Context {value annot call : Type}.
Context (isinstance : value -> annot -> res bool).
Context (type_name : annot -> option string).

Lemma check_instance_ok v a :
  isinstance v a = Ret true -> check_instance isinstance type_name v a = Ret tt.
Proof. intros H. unfold check_instance. rewrite H. reflexivity. Qed.

Lemma check_instance_mismatch v a :
  is_class isinstance type_name a ->
  isinstance v a = Ret false -> check_instance isinstance type_name v a = Raise TypeError.
Proof.
  intros [_ [n Hn]] H. unfold check_instance. rewrite H, Hn. reflexivity.
Qed.

Lemma check_arguments_ok (f : func value annot call) bound :
  arguments_are_instances isinstance f bound -> check_arguments isinstance type_name f bound = Ret tt.
Proof.
  induction bound as [|[name v] rest IH]; intros Hall; [reflexivity|].
  cbn. assert (Hrest : arguments_are_instances isinstance f rest).
  { intros n' v' a' Hin. apply (Hall n' v' a'). apply list_elem_of_further. exact Hin. }
  destruct (annotations f !! name) as [a|] eqn:Ha; [|exact (IH Hrest)].
  rewrite check_instance_ok; [exact (IH Hrest)|].
  apply (Hall name v a); [apply list_elem_of_here|exact Ha].
Qed.

Lemma check_arguments_mismatch (f : func value annot call) bound :
  (forall name v a, (name, v) ∈ bound -> annotations f !! name = Some a ->
                    is_class isinstance type_name a) ->
  (exists name v a, (name, v) ∈ bound /\ annotations f !! name = Some a /\
                    isinstance v a = Ret false) ->
  check_arguments isinstance type_name f bound = Raise TypeError.
Proof.
  induction bound as [|[name v] rest IH]; intros Hcls (n & w & a & Hin & Ha & Hbad).
  { inversion Hin. }
  cbn.
  assert (Hcls' : forall name v a, (name, v) ∈ rest -> annotations f !! name = Some a ->
                                   is_class isinstance type_name a).
  { intros n' v' a' Hin'. apply (Hcls n' v' a'). apply list_elem_of_further. exact Hin'. }
  destruct (annotations f !! name) as [a0|] eqn:Ha0.
  - assert (Hc : is_class isinstance type_name a0).
    { apply (Hcls name v a0); [apply list_elem_of_here|exact Ha0]. }
    destruct (isinstance v a0) as [[|]|e] eqn:Hi.
    + rewrite check_instance_ok by exact Hi.
      apply IH; [exact Hcls'|].
      apply elem_of_cons in Hin as [Heq|Hin].
      * inversion Heq; subst. rewrite Ha0 in Ha. inversion Ha; subst.
        rewrite Hi in Hbad. discriminate Hbad.
      * exists n, w, a. auto.
    + rewrite (check_instance_mismatch v a0 Hc Hi). reflexivity.
    + destruct Hc as [Hret _]. specialize (Hret v). rewrite Hi in Hret.
      discriminate Hret.
  - apply IH; [exact Hcls'|].
    apply elem_of_cons in Hin as [Heq|Hin].
    + inversion Heq; subst. rewrite Ha0 in Ha. discriminate Ha.
    + exists n, w, a. auto.
Qed.

Lemma check_arguments_annotated (f : func value annot call) bound :
  check_arguments isinstance type_name f bound = check_arguments isinstance type_name f (annotated f bound).
Proof.
  induction bound as [|[name v] rest IH]; [reflexivity|].
  cbn. destruct (annotations f !! name) as [a|] eqn:Ha; cbn.
  - rewrite Ha. rewrite IH. reflexivity.
  - exact IH.
Qed.

(** C10 (amended): for every function and every call that binds to its
    signature: (a) if every annotated argument, and the result against the
    return annotation when there is one, passes the wrapper's own test
    ([isinstance] answers True), the wrapper returns exactly the function's
    result, having run the body once; (b) if the annotations of the bound
    parameters are classes and [isinstance] answers False for some
    annotated argument, the wrapper raises TypeError and the body is not
    run; (c) the test of the arguments depends on the annotated ones only. *)
Theorem C10_enforce_types (f : func value annot call) (c : call) (bound : list (string * value)) :
  bind_arguments f c = Ret bound ->
  (arguments_are_instances isinstance f bound ->
   forall r, run_body f c = Ret r ->
             result_is_instance isinstance f r ->
             enforce_types isinstance type_name f c = {| call_outcome := Ret r; body_runs := 1 |}) /\
  ((forall name v a, (name, v) ∈ bound -> annotations f !! name = Some a ->
                     is_class isinstance type_name a) ->
   (exists name v a, (name, v) ∈ bound /\ annotations f !! name = Some a /\
                     isinstance v a = Ret false) ->
   enforce_types isinstance type_name f c = {| call_outcome := Raise TypeError; body_runs := 0 |}) /\
  check_arguments isinstance type_name f bound = check_arguments isinstance type_name f (annotated f bound).
Proof.
  intros Hbind. split; [|split].
  - intros Hargs r Hbody Hres. unfold enforce_types.
    rewrite Hbind, (check_arguments_ok f bound Hargs), Hbody.
    destruct (annotations f !! "return") as [a|] eqn:Ha; [|reflexivity].
    rewrite check_instance_ok; [reflexivity|]. apply Hres. exact Ha.
  - intros Hcls Hbad. unfold enforce_types.
    rewrite Hbind, (check_arguments_mismatch f bound Hcls Hbad). reflexivity.
  - apply check_arguments_annotated.
Qed.

End EnforceTypesFacts.

(** The two calls of the docstring. *)
Lemma greet_alice :
  enforce_types Py.isinstance Py.type_name Py.greet [Py.VStr "Alice"; Py.VInt 30]
  = {| call_outcome := Ret (Py.VStr "Hello, Alice"); body_runs := 1 |}.
Proof. vm_compute. reflexivity. Qed.

Lemma greet_bob :
  enforce_types Py.isinstance Py.type_name Py.greet [Py.VStr "Bob"; Py.VStr "twenty"]
  = {| call_outcome := Raise TypeError; body_runs := 0 |}.
Proof. vm_compute. reflexivity. Qed.

(** A mismatch against a tuple of classes surfaces as AttributeError: the
    message asks the tuple for its [__name__]. *)
Lemma show_float :
  enforce_types Py.isinstance Py.type_name Py.show [Py.VFloat 35 (-1); Py.VBool true]
  = {| call_outcome := Raise AttributeError; body_runs := 0 |}.
Proof. vm_compute. reflexivity. Qed.

Lemma tick_well_typed : Py.well_typed_call Py.tick [Py.VInt 1] Py.VNone.
Proof.
  exists [("n", Py.VInt 1)]. split; [reflexivity|]. split; [|split; [reflexivity|]].
  - intros name v a Hin Ha.
    apply list_elem_of_singleton in Hin. inversion Hin; subst.
    vm_compute in Ha. inversion Ha; subst. reflexivity.
  - intros a Ha. vm_compute in Ha. inversion Ha; subst. reflexivity.
Qed.

Lemma show_bound :
  bind_arguments Py.show [Py.VFloat 35 (-1); Py.VBool true]
  = Ret [("x", Py.VFloat 35 (-1)); ("verbose", Py.VBool true)].
Proof. reflexivity. Qed.

(** C10, as stated, fails twice.  A procedure annotated [-> None] that is
    called with a fitting argument and returns None does not get its result
    back: the wrapper raises TypeError after the body has run, because None
    is not something [isinstance] can test against.  And an argument that
    does not fit a hint given as a tuple of classes makes the wrapper raise
    AttributeError, not TypeError: the message asks the tuple for its
    [__name__]. *)
Lemma C10_identity_counterexample :
  ~ (forall (f : func Py.value Py.annot (list Py.value)) (c : list Py.value)
            (r : Py.value),
       Py.well_typed_call f c r ->
       call_outcome (enforce_types Py.isinstance Py.type_name f c) = Ret r) /\
  ~ (forall (f : func Py.value Py.annot (list Py.value)) (c : list Py.value)
            (bound : list (string * Py.value)) (name : string) (v : Py.value)
            (a : Py.annot),
       bind_arguments f c = Ret bound ->
       (name, v) ∈ bound ->
       annotations f !! name = Some a ->
       Py.hint_accepts a v = false ->
       call_outcome (enforce_types Py.isinstance Py.type_name f c) = Raise TypeError).
Proof.
  split.
  - intros H. specialize (H Py.tick [Py.VInt 1] Py.VNone tick_well_typed).
    vm_compute in H. discriminate H.
  - intros H.
    specialize (H Py.show [Py.VFloat 35 (-1); Py.VBool true] _ "x" (Py.VFloat 35 (-1))
                  (Py.ATuple [Py.CInt; Py.CStr]) show_bound).
    assert (Hin : ("x", Py.VFloat 35 (-1))
                  ∈ [("x", Py.VFloat 35 (-1)); ("verbose", Py.VBool true)])
      by apply list_elem_of_here.
    specialize (H Hin eq_refl eq_refl).
    vm_compute in H. discriminate H.
Qed.

Lemma C10_enforce_types_witness :
  bind_arguments Py.greet [Py.VStr "Alice"; Py.VInt 30]
  = Ret [("name", Py.VStr "Alice"); ("age", Py.VInt 30)] /\
  check_arguments Py.isinstance Py.type_name Py.greet
    [("name", Py.VStr "Alice"); ("age", Py.VInt 30)]
  = check_arguments Py.isinstance Py.type_name Py.greet
      (annotated Py.greet [("name", Py.VStr "Alice"); ("age", Py.VInt 30)]).
Proof.
  split; [reflexivity|].
  exact (proj2 (proj2 (C10_enforce_types Py.isinstance Py.type_name Py.greet
                         [Py.VStr "Alice"; Py.VInt 30]
                         [("name", Py.VStr "Alice"); ("age", Py.VInt 30)] eq_refl))).
Defined.


(* ===================================================================== *)
(** * Further properties of the code *)
(* ===================================================================== *)

(** ** StateDB *)

Lemma is_processed_after_insert (t t' : string) (txs : gset hashable) :
  bool_decide (HStr t' ∈ {[HStr t]} ∪ txs)
  = bool_decide (t' = t) || bool_decide (HStr t' ∈ txs).
Proof.
  destruct (decide (t' = t)) as [->|Hne].
  - rewrite bool_decide_true by (apply elem_of_union_l, elem_of_singleton; reflexivity).
    rewrite bool_decide_true by reflexivity. reflexivity.
  - rewrite (bool_decide_false (t' = t)) by exact Hne. cbn.
    apply bool_decide_ext. rewrite elem_of_union, elem_of_singleton.
    split; [intros [Heq|Hin]; [congruence|exact Hin]|intros Hin; right; exact Hin].
Qed.

(** X1: [mark_as_processed(t)] always returns, whatever happens to the
    write; afterwards [is_processed(t')] is true exactly for [t] and for the
    ids that were processed before. *)
Theorem X1_mark_then_lookup (rt : runtime) (w : write_outcome) (t t' : string)
    (s : state) :
  outcome (mark_as_processed rt w t) s = Ret tt /\
  outcome (is_processed t') (exec (mark_as_processed rt w t) s)
  = Ret (bool_decide (t' = t) || bool_decide (HStr t' ∈ processed_txs s)).
Proof.
  destruct (mark_as_processed_state rt w t s) as (Hret & Htxs & _).
  cbn zeta in Htxs. split; [exact Hret|].
  unfold outcome. rewrite is_processed_spec. cbn [fst]. rewrite Htxs.
  rewrite is_processed_after_insert. reflexivity.
Qed.

(** X2: marking an id a second time changes neither the dedup set nor, when
    both writes succeed, the file. *)
Theorem X2_mark_twice (rt : runtime) (w1 w2 : write_outcome) (t : string) (s : state) :
  let once := exec (mark_as_processed rt w1 t) s in
  let twice := exec (mark_as_processed rt w2 t) once in
  processed_txs twice = processed_txs once /\
  (w1 = WriteOk -> w2 = WriteOk -> db_file twice = db_file once).
Proof.
  cbn zeta.
  destruct (mark_as_processed_state rt w1 t s) as (_ & Htxs1 & Hfile1 & _).
  destruct (mark_as_processed_state rt w2 t (exec (mark_as_processed rt w1 t) s))
    as (_ & Htxs2 & Hfile2 & _).
  cbn zeta in *.
  assert (Hsame : {[HStr t]} ∪ processed_txs (exec (mark_as_processed rt w1 t) s)
                  = processed_txs (exec (mark_as_processed rt w1 t) s)).
  { rewrite Htxs1. apply set_eq. intros x.
    rewrite !elem_of_union, !elem_of_singleton. tauto. }
  split.
  - rewrite Htxs2. exact Hsame.
  - intros -> ->. rewrite Hfile2, Hsame, Hfile1, Htxs1. reflexivity.
Qed.

(** X3: after a successful flush, a fresh instance that can read the file
    loads exactly the in-memory set, without an error line. *)
Theorem X3_save_then_load (rt : runtime) (t : string) (s : state) :
  codec_roundtrips rt ({[HStr t]} ∪ processed_txs s) ->
  let saved := exec (mark_as_processed rt WriteOk t) s in
  let loaded := exec (StateDB_init rt ReadOk) (fresh (db_file saved)) in
  outcome (StateDB_init rt ReadOk) (fresh (db_file saved)) = Ret tt /\
  processed_txs loaded = processed_txs saved /\
  trace loaded = [Logged INFO (MsgStateDBInit (size (processed_txs saved)))].
Proof.
  intros Hcodec. cbn zeta.
  destruct (mark_as_processed_state rt WriteOk t s) as (_ & Htxs & Hfile & _).
  cbn zeta in Htxs, Hfile. rewrite Hfile, Htxs.
  unfold StateDB_init, exec, outcome. unfold bind.
  rewrite (_load_snapshot rt ({[HStr t]} ∪ processed_txs s)); [|exact Hcodec|reflexivity].
  cbn. auto.
Qed.

Lemma X3_save_then_load_witness :
  codec_roundtrips RefRuntime.rt ({[HStr "0x0b"]} ∪ processed_txs
     (exec (mark_as_processed RefRuntime.rt WriteOk "0x0a") (fresh None))) /\
  processed_txs
    (exec (StateDB_init RefRuntime.rt ReadOk)
       (fresh (db_file (exec (mark_as_processed RefRuntime.rt WriteOk "0x0b")
                          (exec (mark_as_processed RefRuntime.rt WriteOk "0x0a")
                             (fresh None))))))
  = processed_txs (exec (mark_as_processed RefRuntime.rt WriteOk "0x0b")
                     (exec (mark_as_processed RefRuntime.rt WriteOk "0x0a") (fresh None))).
Proof.
  assert (Hc : codec_roundtrips RefRuntime.rt ({[HStr "0x0b"]} ∪ processed_txs
     (exec (mark_as_processed RefRuntime.rt WriteOk "0x0a") (fresh None)))).
  { split; vm_compute; reflexivity. }
  split; [exact Hc|].
  exact (proj1 (proj2 (X3_save_then_load RefRuntime.rt "0x0b"
                         (exec (mark_as_processed RefRuntime.rt WriteOk "0x0a") (fresh None))
                         Hc))).
Defined.

Lemma hash_all_strings (ids : list string) :
  hash_all (JStr <$> ids) = Some (HStr <$> ids).
Proof. induction ids as [|t ids IH]; [reflexivity|]. cbn. rewrite IH. reflexivity. Qed.

Lemma elem_of_loaded_strings (t : string) (ids : list string) :
  HStr t ∈ (list_to_set (HStr <$> ids) : gset hashable) <-> t ∈ ids.
Proof.
  rewrite elem_of_list_to_set, list_elem_of_fmap. split.
  - intros (t0 & Heq & Hin). inversion Heq; subst. exact Hin.
  - intros Hin. exists t. auto.
Qed.

(** X4: a file that holds an object whose 'processed_txs' is a list of
    strings loads as the set of those strings: an id is processed exactly
    when it occurs in the list, so order and repetitions in the file do not
    matter. *)
Theorem X4_load_is_a_set (rt : runtime) (s : state) (bytes : list Byte.byte)
    (text : string) (pairs : list (string * json)) (ids : list string) :
  db_file s = Some bytes ->
  text_decode rt bytes = Some text ->
  json_loads rt text = Some (JObj pairs) ->
  dict_get "processed_txs" pairs (JArr []) = JArr (JStr <$> ids) ->
  let loaded := exec (StateDB_init rt ReadOk) s in
  outcome (StateDB_init rt ReadOk) s = Ret tt /\
  (forall t, outcome (is_processed t) loaded = Ret (bool_decide (t ∈ ids))) /\
  trace loaded = trace s ++ [Logged INFO (MsgStateDBInit (size (processed_txs loaded)))].
Proof.
  intros Hfile Hd Hp Hget. cbn zeta.
  unfold StateDB_init, exec, outcome. unfold bind.
  rewrite (_load_parsed rt s bytes text _ Hfile Hd Hp), Hget.
  cbn [set_of_json]. rewrite hash_all_strings. cbn.
  split; [reflexivity|]. split; [|reflexivity].
  intros t. f_equal. apply bool_decide_ext. apply elem_of_loaded_strings.
Qed.

Lemma X4_load_is_a_set_witness :
  let doc := JObj [("processed_txs", JArr [JStr "0x0b"; JStr "0x0a"; JStr "0x0b"])] in
  let bytes := RefRuntime.encode (RefRuntime.dumps doc) in
  db_file (fresh (Some bytes)) = Some bytes /\
  outcome (is_processed "0x0a") (exec (StateDB_init RefRuntime.rt ReadOk) (fresh (Some bytes)))
  = Ret (bool_decide ("0x0a" ∈ ["0x0b"; "0x0a"; "0x0b"])).
Proof.
  cbn zeta. split; [reflexivity|].
  refine (proj1 (proj2 (X4_load_is_a_set RefRuntime.rt
            (fresh (Some (RefRuntime.encode (RefRuntime.dumps
               (JObj [("processed_txs", JArr [JStr "0x0b"; JStr "0x0a"; JStr "0x0b"])])))))
            (RefRuntime.encode (RefRuntime.dumps
               (JObj [("processed_txs", JArr [JStr "0x0b"; JStr "0x0a"; JStr "0x0b"])])))
            (RefRuntime.dumps (JObj [("processed_txs",
                                      JArr [JStr "0x0b"; JStr "0x0a"; JStr "0x0b"])]))
            [("processed_txs", JArr [JStr "0x0b"; JStr "0x0a"; JStr "0x0b"])]
            ["0x0b"; "0x0a"; "0x0b"] eq_refl _ _ _)) "0x0a");
    vm_compute; reflexivity.
Defined.

Lemma dict_get_missing (key : string) (pairs : list (string * json)) (default : json) :
  key ∉ pairs.*1 -> dict_get key pairs default = default.
Proof.
  revert default. induction pairs as [|[k v] rest IH]; intros default Hnin; [reflexivity|].
  cbn in *. apply not_elem_of_cons in Hnin as [Hne Hnin].
  destruct (String.eqb_spec k key) as [->|_]; [contradiction|]. apply IH. exact Hnin.
Qed.

(** X5: a file that holds a JSON object without the key 'processed_txs'
    (the object [{}] for one) is not an error: the store starts empty and
    only the usual info line is logged. *)
Theorem X5_load_missing_key (rt : runtime) (s : state) (bytes : list Byte.byte)
    (text : string) (pairs : list (string * json)) :
  db_file s = Some bytes ->
  text_decode rt bytes = Some text ->
  json_loads rt text = Some (JObj pairs) ->
  "processed_txs" ∉ pairs.*1 ->
  StateDB_init rt ReadOk s
  = (Ret tt, add_action (Logged INFO (MsgStateDBInit 0)) (set_processed_txs ∅ s)).
Proof.
  intros Hfile Hd Hp Hkey.
  unfold StateDB_init. unfold bind.
  rewrite (_load_parsed rt s bytes text _ Hfile Hd Hp).
  rewrite (dict_get_missing _ _ _ Hkey). reflexivity.
Qed.

Lemma X5_load_missing_key_witness :
  db_file (fresh (Some (RefRuntime.encode "{}"))) = Some (RefRuntime.encode "{}") /\
  StateDB_init RefRuntime.rt ReadOk (fresh (Some (RefRuntime.encode "{}")))
  = (Ret tt, add_action (Logged INFO (MsgStateDBInit 0))
               (set_processed_txs ∅ (fresh (Some (RefRuntime.encode "{}"))))).
Proof.
  split; [reflexivity|].
  apply (X5_load_missing_key RefRuntime.rt _ (RefRuntime.encode "{}") "{}" []);
    try reflexivity.
  apply not_elem_of_nil.
Defined.

(** Every way [_load] can go. *)
Lemma _load_cases rt r s :
  _load rt r s = (Ret ∅, s) \/
  (exists e, _load rt r s = (Ret ∅, add_action (Logged ERROR (MsgLoadError e)) s)) \/
  (exists txs, _load rt r s = (Ret txs, s)) \/
  (exists e, _load rt r s = (Raise e, s)).
Proof.
  destruct (db_file s) as [bytes|] eqn:Hfile.
  2:{ left. apply _load_absent. exact Hfile. }
  destruct r.
  2:{ right; left. exists IOError. apply (_load_read_fails rt s bytes Hfile). }
  destruct (text_decode rt bytes) as [text|] eqn:Hd.
  2:{ right; right; right. exists UnicodeDecodeError.
      apply (_load_undecodable rt s bytes Hfile Hd). }
  destruct (json_loads rt text) as [data|] eqn:Hp.
  2:{ right; left. exists JSONDecodeError.
      apply (_load_unparsable rt s bytes text Hfile Hd Hp). }
  rewrite (_load_parsed rt s bytes text data Hfile Hd Hp).
  destruct data as [| | | | |pairs]; try (right; right; right; eexists; reflexivity).
  destruct (set_of_json (dict_get "processed_txs" pairs (JArr []))) as [txs|e].
  - right; right; left. eexists; reflexivity.
  - right; right; right. eexists; reflexivity.
Qed.

(** X6: constructing a StateDB never writes the file and never touches the
    block cursor or the poll interval; and when the constructor raises, it
    has changed nothing at all and logged nothing. *)
Theorem X6_init_only_reads (rt : runtime) (r : read_outcome) (s : state) :
  let s' := exec (StateDB_init rt r) s in
  db_file s' = db_file s /\
  last_processed_block s' = last_processed_block s /\
  poll_interval s' = poll_interval s /\
  (returns (outcome (StateDB_init rt r) s) = false -> s' = s).
Proof.
  cbn zeta. unfold StateDB_init, exec, outcome. unfold bind.
  destruct (_load_cases rt r s) as [H|[[e H]|[[txs H]|[e H]]]]; rewrite H; cbn;
    repeat split; try discriminate.
Qed.

Lemma hash_all_unhashable (items : list json) (x : json) :
  x ∈ items -> hash_of_json x = None -> hash_all items = None.
Proof.
  induction items as [|y rest IH]; intros Hin Hx; [inversion Hin|].
  apply elem_of_cons in Hin as [<-|Hin].
  - cbn. rewrite Hx. reflexivity.
  - cbn. rewrite (IH Hin Hx). destruct (hash_of_json y); reflexivity.
Qed.

(** X7: a file that holds an object whose 'processed_txs' is null, a boolean
    or a number, or a list with a list or an object among its items, makes
    the constructor raise TypeError, which [_load] does not catch; nothing
    is logged. *)
Theorem X7_load_wrong_member_type (rt : runtime) (s : state) (bytes : list Byte.byte)
    (text : string) (pairs : list (string * json)) (v : json) :
  db_file s = Some bytes ->
  text_decode rt bytes = Some text ->
  json_loads rt text = Some (JObj pairs) ->
  dict_get "processed_txs" pairs (JArr []) = v ->
  (v = JNull \/ (exists b, v = JBool b) \/ (exists z, v = JNum z) \/
   (exists items x, v = JArr items /\ x ∈ items /\
                    ((exists l, x = JArr l) \/ (exists o, x = JObj o)))) ->
  StateDB_init rt ReadOk s = (Raise TypeError, s).
Proof.
  intros Hfile Hd Hp Hget Hshape.
  unfold StateDB_init. unfold bind.
  rewrite (_load_parsed rt s bytes text _ Hfile Hd Hp), Hget.
  destruct Hshape as [->|[[b ->]|[[z ->]|(items & x & -> & Hin & Hx)]]];
    try reflexivity.
  cbn [set_of_json]. rewrite (hash_all_unhashable items x Hin); [reflexivity|].
  destruct Hx as [[l ->]|[o ->]]; reflexivity.
Qed.

Lemma X7_load_wrong_member_type_witness :
  let bytes := RefRuntime.encode
                 (RefRuntime.dumps (JObj [("processed_txs", JArr [JStr "0x0a"; JArr []])])) in
  db_file (fresh (Some bytes)) = Some bytes /\
  StateDB_init RefRuntime.rt ReadOk (fresh (Some bytes))
  = (Raise TypeError, fresh (Some bytes)).
Proof.
  cbn zeta. split; [reflexivity|].
  apply (X7_load_wrong_member_type RefRuntime.rt _
           (RefRuntime.encode
              (RefRuntime.dumps (JObj [("processed_txs", JArr [JStr "0x0a"; JArr []])])))
           (RefRuntime.dumps (JObj [("processed_txs", JArr [JStr "0x0a"; JArr []])]))
           [("processed_txs", JArr [JStr "0x0a"; JArr []])]
           (JArr [JStr "0x0a"; JArr []]));
    try (vm_compute; reflexivity).
  right; right; right. exists [JStr "0x0a"; JArr []], (JArr []).
  split; [reflexivity|]. split; [|left; exists []; reflexivity].
  apply list_elem_of_further, list_elem_of_here.
Defined.

(** ** process_event *)

Lemma marked_app t u : marked (t ++ u) = marked t ++ marked u.
Proof. apply omap_app. Qed.

Lemma marked_cons a t :
  marked (a :: t)
  = match a with Logged INFO (MsgMarked tx) => [tx] | _ => [] end ++ marked t.
Proof. destruct a as [[] []| | |]; reflexivity. Qed.

Global Arguments marked : simpl never.

Ltac book_simpl :=
  repeat (progress (cbn;
    rewrite ?dispatches_app, ?entered_app, ?sleeps_app, ?marked_app,
      ?dispatches_cons, ?entered_cons, ?sleeps_cons, ?marked_cons,
      ?app_nil_r, <- ?app_assoc));
  change (dispatches []) with (@nil action) in *;
  change (entered []) with (@nil event) in *;
  change (sleeps []) with (@nil N) in *;
  change (marked []) with (@nil string) in *;
  cbn; rewrite ?app_nil_r.

Lemma truthy_fields (sender : string) (amount target : Z) :
  truthy_str (Some sender) && truthy_int (Some amount) && truthy_int (Some target) = true
  <-> sender <> "" /\ amount <> 0 /\ target <> 0.
Proof.
  cbn. destruct (String.eqb_spec sender ""), (Z.eqb_spec amount 0), (Z.eqb_spec target 0);
    cbn; split; try discriminate; try tauto; intros (? & ? & ?); contradiction.
Qed.

Lemma from_wei_in_range (amount : Z) :
  0 <= amount < 2 ^ 256 <-> from_wei amount = Ret tt.
Proof.
  unfold from_wei.
  destruct (Z.leb_spec 0 amount), (Z.ltb_spec amount (2 ^ 256)); cbn;
    split; try reflexivity; try discriminate; try tauto; lia.
Qed.

(** The accepted path, when neither the amount nor the oracle makes it
    raise. *)
Lemma process_event_accepted_run rt env ev s sender amount target :
  HStr (hex (transactionHash ev)) ∉ processed_txs s ->
  fields_present ev sender amount target ->
  truthy_str (Some sender) && truthy_int (Some amount) && truthy_int (Some target) = true ->
  dest_chain_id env = Ret target ->
  from_wei amount = Ret tt ->
  (gas_oracle env = Raise RequestException \/ exists price, gas_oracle env = Ret price) ->
  outcome (process_event rt env ev) s = Ret tt /\
  dispatched rt env ev sender amount s (exec (process_event rt env ev) s) /\
  (gas_oracle env = Raise RequestException ->
   logged WARNING MsgOracleUnavailable (trace (exec (process_event rt env ev) s))).
Proof.
  intros Hnin Hp Ht Hq Hwei Horacle. unfold exec, outcome, dispatched.
  rewrite (process_event_accepted rt env ev s _ _ _ Hnin Hp Ht Hq), Hwei.
  unfold after_oracle, _get_current_gas_price_from_oracle. unfold_py.
  destruct Horacle as [Ho|[price Ho]]; rewrite Ho; cbn [exn_eqb fst snd].
  - rewrite mark_as_processed_run. cbn [fst snd].
    split; [reflexivity|]. split.
    + cbn. rewrite _save_trace, _save_processed_txs, _save_db_file.
      destruct (flush env); book_simpl; repeat split.
    + intros _. unfold logged. cbn. rewrite _save_trace. cbn.
      rewrite !elem_of_app, !list_elem_of_singleton. tauto.
  - rewrite mark_as_processed_run. cbn [fst snd].
    split; [reflexivity|]. split.
    + cbn. rewrite _save_trace, _save_processed_txs, _save_db_file.
      destruct (flush env); book_simpl; repeat split.
    + intros Hcontra. discriminate Hcontra.
Qed.

(** Every call of [process_event] either leaves the bookkeeping alone, or
    finds the transaction new, dispatches it and marks it. *)
Lemma process_event_step rt env ev s :
  let s' := exec (process_event rt env ev) s in
  (quiet s s' /\
   (outcome (process_event rt env ev) s = Ret tt \/
    (exists e, outcome (process_event rt env ev) s = Raise e /\
               (dest_chain_id env = Raise e \/ e = ValueError \/
                (gas_oracle env = Raise e /\ e <> RequestException))))) \/
  ((HStr (hex (transactionHash ev)) ∉ processed_txs s) /\
   outcome (process_event rt env ev) s = Ret tt /\
   exists sender amount, dispatched rt env ev sender amount s s').
Proof.
  cbn zeta.
  destruct (decide (HStr (hex (transactionHash ev)) ∈ processed_txs s)) as [Hin|Hnin].
  { left. unfold exec, outcome, quiet. rewrite (process_event_seen rt env ev s Hin).
    cbn [fst snd]. split; [|left; reflexivity]. book_simpl. repeat split. }
  destruct (event_shape ev) as [Hfalsy|(sender & amount & target & Hp & Ht)].
  { left. unfold exec, outcome, quiet.
    rewrite (process_event_malformed rt env ev s Hnin Hfalsy).
    cbn [fst snd]. split; [|left; reflexivity]. book_simpl. repeat split. }
  destruct (dest_chain_id env) as [d|e] eqn:Hq.
  2:{ left. unfold exec, outcome, quiet.
      rewrite (process_event_chain_query_raises rt env ev s _ _ _ e Hnin Hp Ht Hq).
      cbn [fst snd]. split; [book_simpl; repeat split|].
      right. exists e. split; [reflexivity|left; reflexivity]. }
  destruct (decide (target = d)) as [->|Hne].
  2:{ left. unfold exec, outcome, quiet.
      rewrite (process_event_other_chain rt env ev s _ _ _ d Hnin Hp Ht Hq Hne).
      cbn [fst snd]. split; [|left; reflexivity]. book_simpl. repeat split. }
  destruct (from_wei amount) as [[]|e] eqn:Hwei.
  2:{ left. unfold exec, outcome, quiet.
      rewrite (process_event_accepted rt env ev s _ _ _ Hnin Hp Ht Hq), Hwei.
      cbn [fst snd]. split; [book_simpl; repeat split|].
      right. exists e. split; [reflexivity|]. right; left.
      unfold from_wei in Hwei.
      destruct ((0 <=? amount) && (amount <? 2 ^ 256))%Z; inversion Hwei; reflexivity. }
  destruct (gas_oracle env) as [price|e] eqn:Ho.
  - right. split; [exact Hnin|].
    destruct (process_event_accepted_run rt env ev s _ _ _ Hnin Hp Ht Hq Hwei)
      as (Hret & Hd & _); [right; exists price; exact Ho|].
    split; [exact Hret|]. exists sender, amount. exact Hd.
  - destruct (exn_eqb e RequestException) eqn:Heq.
    + assert (e = RequestException) as -> by (destruct e; try discriminate; reflexivity).
      right. split; [exact Hnin|].
      destruct (process_event_accepted_run rt env ev s _ _ _ Hnin Hp Ht Hq Hwei)
        as (Hret & Hd & _); [left; exact Ho|].
      split; [exact Hret|]. exists sender, amount. exact Hd.
    + left. unfold exec, outcome, quiet.
      rewrite (process_event_accepted rt env ev s _ _ _ Hnin Hp Ht Hq), Hwei.
      unfold after_oracle, _get_current_gas_price_from_oracle. unfold_py.
      rewrite Ho, Heq. cbn [fst snd]. split; [book_simpl; repeat split|].
      right. exists e. split; [reflexivity|]. right; right.
      split; [reflexivity|]. intros ->. discriminate Heq.
Qed.

(** X8: an event that is new, has a non-empty sender, a non-zero amount
    within 256 bits and the destination's chain id as its non-zero target is
    dispatched exactly once and then marked: one dispatch line with its
    sender and amount is added, its transaction id joins the dedup set, and
    the set is flushed.  A gas oracle that fails with a RequestException
    only adds a warning. *)
Theorem X8_accepted_event (rt : runtime) (env : event_env) (ev : event) (s : state)
    (sender : string) (amount target : Z) :
  HStr (hex (transactionHash ev)) ∉ processed_txs s ->
  fields_present ev sender amount target ->
  sender <> "" -> 0 < amount < 2 ^ 256 -> target <> 0 ->
  dest_chain_id env = Ret target ->
  (gas_oracle env = Raise RequestException \/ exists price, gas_oracle env = Ret price) ->
  let s' := exec (process_event rt env ev) s in
  outcome (process_event rt env ev) s = Ret tt /\
  dispatches (trace s')
  = dispatches (trace s) ++ [Logged INFO (MsgSimulationMint sender amount)] /\
  processed_txs s' = {[HStr (hex (transactionHash ev))]} ∪ processed_txs s /\
  db_file s' = flushed rt (flush env)
                 ({[HStr (hex (transactionHash ev))]} ∪ processed_txs s) (db_file s) /\
  (gas_oracle env = Raise RequestException ->
   logged WARNING MsgOracleUnavailable (trace s')).
Proof.
  intros Hnin Hp Hs Ha Ht Hq Ho. cbn zeta.
  assert (Htruthy : truthy_str (Some sender) && truthy_int (Some amount)
                    && truthy_int (Some target) = true).
  { apply truthy_fields. repeat split; [exact Hs|lia|exact Ht]. }
  assert (Hwei : from_wei amount = Ret tt) by (apply from_wei_in_range; lia).
  destruct (process_event_accepted_run rt env ev s _ _ _ Hnin Hp Htruthy Hq Hwei Ho)
    as (Hret & (Hd & _ & Htxs & Hfile) & Hwarn).
  auto.
Qed.

Lemma X8_accepted_event_witness :
  (HStr (hex (transactionHash ev_a)) ∉ processed_txs (fresh None)) /\
  dispatches (trace (exec (process_event RefRuntime.rt env_ok ev_a) (fresh None)))
  = dispatches (trace (fresh None)) ++ [Logged INFO (MsgSimulationMint "0xfeed" 100)].
Proof.
  assert (Hnin : HStr (hex (transactionHash ev_a)) ∉ processed_txs (fresh None))
    by apply not_elem_of_empty.
  split; [exact Hnin|].
  refine (proj1 (proj2 (X8_accepted_event RefRuntime.rt env_ok ev_a (fresh None)
                          "0xfeed" 100 80001 Hnin _ _ _ _ eq_refl _))).
  - repeat split.
  - discriminate.
  - split; [lia|reflexivity].
  - discriminate.
  - right. exists (Some "20"). reflexivity.
Defined.

(** X9: when [process_event] raises, nothing has been dispatched, marked or
    written, so the event is handled afresh when it is delivered again.  The
    exception is that of the destination's chain-id query, the ValueError of
    an amount outside 256 bits, or an oracle exception other than a
    RequestException. *)
Theorem X9_raise_is_clean (rt : runtime) (env : event_env) (ev : event) (s : state)
    (e : exn) :
  outcome (process_event rt env ev) s = Raise e ->
  let s' := exec (process_event rt env ev) s in
  dispatches (trace s') = dispatches (trace s) /\
  processed_txs s' = processed_txs s /\
  db_file s' = db_file s /\
  (dest_chain_id env = Raise e \/ e = ValueError \/
   (gas_oracle env = Raise e /\ e <> RequestException)).
Proof.
  intros Hraise. cbn zeta.
  destruct (process_event_step rt env ev s)
    as [[(Hd & _ & Htxs & Hfile) [Hret|(e' & He' & Horigin)]]|(_ & Hret & _)];
    cbn zeta in *.
  - rewrite Hret in Hraise. discriminate Hraise.
  - rewrite He' in Hraise. inversion Hraise; subst e'. auto.
  - rewrite Hret in Hraise. discriminate Hraise.
Qed.

Lemma X9_raise_is_clean_witness :
  let env := {| dest_chain_id := Raise (OtherError "Timeout");
                gas_oracle := Ret None; flush := WriteOk |} in
  outcome (process_event RefRuntime.rt env ev_a) (fresh None) = Raise (OtherError "Timeout") /\
  processed_txs (exec (process_event RefRuntime.rt env ev_a) (fresh None))
  = processed_txs (fresh None).
Proof.
  cbn zeta.
  assert (H : outcome (process_event RefRuntime.rt
                         {| dest_chain_id := Raise (OtherError "Timeout");
                            gas_oracle := Ret None; flush := WriteOk |} ev_a) (fresh None)
              = Raise (OtherError "Timeout")) by (vm_compute; reflexivity).
  split; [exact H|].
  exact (proj1 (proj2 (X9_raise_is_clean RefRuntime.rt _ ev_a (fresh None) _ H))).
Defined.

(** ** The loop *)

Lemma bookkeeping_same (s s' : state) :
  dispatches (trace s') = dispatches (trace s) ->
  marked (trace s') = marked (trace s) ->
  processed_txs s ⊆ processed_txs s' ->
  bookkeeping_ok s -> bookkeeping_ok s'.
Proof.
  intros Hd Hm Htxs (Hlen & Hnodup & Hin). unfold bookkeeping_ok.
  rewrite Hd, Hm. split; [exact Hlen|]. split; [exact Hnodup|].
  intros tx Htx. apply Htxs, Hin, Htx.
Qed.

Lemma process_event_bookkeeping rt env ev s :
  bookkeeping_ok s -> bookkeeping_ok (exec (process_event rt env ev) s).
Proof.
  intros Hok.
  destruct (process_event_step rt env ev s)
    as [[(Hd & Hm & Htxs & _) _]|(Hnin & _ & sender & amount & Hd & Hm & Htxs & _)];
    cbn zeta in *.
  - apply (bookkeeping_same s); [exact Hd|exact Hm|rewrite Htxs; reflexivity|exact Hok].
  - destruct Hok as (Hlen & Hnodup & Hin). unfold bookkeeping_ok.
    rewrite Hd, Hm, Htxs. split; [rewrite !length_app, Hlen; reflexivity|]. split.
    + apply NoDup_app. split; [exact Hnodup|]. split; [|apply NoDup_singleton].
      intros tx Htx Hhere. apply list_elem_of_singleton in Hhere. subst tx.
      apply Hnin, Hin, Htx.
    + intros tx Htx. apply elem_of_app in Htx as [Htx|Htx].
      * apply elem_of_union_r, Hin, Htx.
      * apply list_elem_of_singleton in Htx. subst tx.
        apply elem_of_union_l, elem_of_singleton. reflexivity.
Qed.

Lemma process_events_bookkeeping rt envs events : forall i s,
  bookkeeping_ok s -> bookkeeping_ok (exec (process_events rt envs i events) s).
Proof.
  induction events as [|ev rest IH]; intros i s Hok; [exact Hok|].
  pose proof (process_event_bookkeeping rt (envs i) ev s Hok) as Hstep.
  unfold exec in *. cbn [process_events]. unfold bind.
  destruct (process_event rt (envs i) ev s) as [[[]|e] s1]; cbn [snd] in *.
  - apply IH. exact Hstep.
  - exact Hstep.
Qed.

Lemma add_action_bookkeeping (a : action) (s : state) :
  is_dispatch a = false ->
  (forall tx, a <> Logged INFO (MsgMarked tx)) ->
  bookkeeping_ok s -> bookkeeping_ok (add_action a s).
Proof.
  intros Hd Hm. apply bookkeeping_same; cbn.
  - rewrite dispatches_app, dispatches_cons, Hd. cbn. rewrite app_nil_r. reflexivity.
  - rewrite marked_app, marked_cons.
    destruct a as [[] []| | |]; cbn; rewrite ?app_nil_r; try reflexivity.
    exfalso. eapply Hm. reflexivity.
  - reflexivity.
Qed.

Lemma handle_entries_bookkeeping rt envs from_block to_block events s :
  bookkeeping_ok s ->
  bookkeeping_ok (exec (handle_entries rt envs from_block to_block events) s).
Proof.
  intros Hok. destruct events as [|ev rest].
  - apply add_action_bookkeeping; [reflexivity|discriminate|exact Hok].
  - apply process_events_bookkeeping. exact Hok.
Qed.

Lemma listen_pass_bookkeeping rt env s :
  bookkeeping_ok s -> bookkeeping_ok (exec (listen_pass rt env) s).
Proof.
  intros Hok. unfold exec. rewrite listen_pass_unfold.
  assert (Htry : bookkeeping_ok (snd (listen_try rt env s))).
  { destruct (listen_try_view rt env s)
      as [e Hq|latest Hq Hle|latest e Hq Hlt He|latest events e s1 Hq Hlt He Hrun
          |latest events s1 Hq Hlt He Hrun]; cbn [snd].
    - repeat (apply add_action_bookkeeping; [reflexivity|discriminate|]). exact Hok.
    - repeat (apply add_action_bookkeeping; [reflexivity|discriminate|]). exact Hok.
    - repeat (apply add_action_bookkeeping; [reflexivity|discriminate|]). exact Hok.
    - pose proof (handle_entries_bookkeeping rt (event_envs env)
                    (last_processed_block s + 1) latest events
                    (add_action (Logged INFO (MsgScanning (last_processed_block s + 1) latest)) s))
        as Hh.
      unfold exec in Hh. rewrite Hrun in Hh. apply Hh.
      apply add_action_bookkeeping; [reflexivity|discriminate|exact Hok].
    - pose proof (handle_entries_bookkeeping rt (event_envs env)
                    (last_processed_block s + 1) latest events
                    (add_action (Logged INFO (MsgScanning (last_processed_block s + 1) latest)) s))
        as Hh.
      unfold exec in Hh. rewrite Hrun in Hh. cbn [snd] in Hh.
      apply add_action_bookkeeping; [reflexivity|discriminate|].
      apply (bookkeeping_same s1); try reflexivity.
      apply Hh. apply add_action_bookkeeping; [reflexivity|discriminate|exact Hok]. }
  destruct (listen_try rt env s) as [[[]|e] s1]; cbn [snd] in *; [exact Htry|].
  repeat (apply add_action_bookkeeping; [reflexivity|discriminate|]). exact Htry.
Qed.

(** X10: the loop keeps the local bookkeeping of dispatches sound.  From a
    state in which every dispatch line has its "marked as processed" line,
    no id is marked twice and every marked id is in the dedup set, any
    number of passes leads to such a state again; so within one process no
    transaction id is dispatched a second time. *)
Theorem X10_dispatch_bookkeeping (rt : runtime) (envs : list cycle_env) (s : state) :
  bookkeeping_ok s -> bookkeeping_ok (exec (listen rt envs) s).
Proof.
  revert s. induction envs as [|env rest IH]; intros s Hok; [exact Hok|].
  pose proof (listen_pass_bookkeeping rt env s Hok) as Hpass.
  pose proof (listen_pass_frame rt env s) as (Hret & _).
  unfold exec, outcome in *. cbn [listen]. unfold bind.
  destruct (listen_pass rt env s) as [r s1]. cbn [fst snd] in *. subst r.
  apply IH. exact Hpass.
Qed.

Lemma X10_dispatch_bookkeeping_witness :
  bookkeeping_ok (fresh None) /\
  bookkeeping_ok (exec (listen RefRuntime.rt [cycle_ok 5 [ev_a; ev_a]; cycle_ok 6 [ev_a]])
                    (fresh None)).
Proof.
  assert (H : bookkeeping_ok (fresh None)).
  { split; [reflexivity|]. split; [constructor|]. intros tx Htx. inversion Htx. }
  split; [exact H|].
  exact (X10_dispatch_bookkeeping RefRuntime.rt _ (fresh None) H).
Defined.

(** X11: when two entries of a scan carry the same transaction hash (two
    events of one transaction), the first, if accepted, is dispatched and the
    second is skipped as already processed, whatever its arguments are. *)
Theorem X11_same_transaction_once (rt : runtime) (envs : nat -> event_env) (i : nat)
    (ev1 ev2 : event) (s : state) (sender : string) (amount target : Z) :
  transactionHash ev2 = transactionHash ev1 ->
  HStr (hex (transactionHash ev1)) ∉ processed_txs s ->
  fields_present ev1 sender amount target ->
  sender <> "" -> 0 < amount < 2 ^ 256 -> target <> 0 ->
  dest_chain_id (envs i) = Ret target ->
  (gas_oracle (envs i) = Raise RequestException \/
   exists price, gas_oracle (envs i) = Ret price) ->
  let s' := exec (process_events rt envs i [ev1; ev2]) s in
  outcome (process_events rt envs i [ev1; ev2]) s = Ret tt /\
  dispatches (trace s')
  = dispatches (trace s) ++ [Logged INFO (MsgSimulationMint sender amount)] /\
  logged DEBUG (MsgSkipProcessed (hex (transactionHash ev2))) (trace s') /\
  processed_txs s' = {[HStr (hex (transactionHash ev1))]} ∪ processed_txs s.
Proof.
  intros Hsame Hnin Hp Hs Ha Ht Hq Ho. cbn zeta.
  assert (Htruthy : truthy_str (Some sender) && truthy_int (Some amount)
                    && truthy_int (Some target) = true).
  { apply truthy_fields. repeat split; [exact Hs|lia|exact Ht]. }
  assert (Hwei : from_wei amount = Ret tt) by (apply from_wei_in_range; lia).
  destruct (process_event_accepted_run rt (envs i) ev1 s _ _ _ Hnin Hp Htruthy Hq Hwei Ho)
    as (Hret & (Hd & _ & Htxs & _) & _).
  unfold exec, outcome in *. cbn [process_events]. unfold bind, ret.
  destruct (process_event rt (envs i) ev1 s) as [r s1]. cbn [fst snd] in *. subst r.
  assert (Hin : HStr (hex (transactionHash ev2)) ∈ processed_txs s1).
  { rewrite Hsame, Htxs. apply elem_of_union_l, elem_of_singleton. reflexivity. }
  rewrite (process_event_seen rt (envs (S i)) ev2 s1 Hin). cbn [fst snd].
  split; [reflexivity|]. split; [|split].
  - book_simpl. exact Hd.
  - unfold logged. cbn. rewrite !elem_of_app, !list_elem_of_singleton. tauto.
  - exact Htxs.
Qed.

Lemma X11_same_transaction_once_witness :
  let ev2 := {| transactionHash := transactionHash ev_a; args := lock_args "0xbeef" 7 80001;
                blockNumber := 5; logIndex := 1 |} in
  transactionHash ev2 = transactionHash ev_a /\
  dispatches (trace (exec (process_events RefRuntime.rt (fun _ => env_ok) 0 [ev_a; ev2])
                       (fresh None)))
  = dispatches (trace (fresh None)) ++ [Logged INFO (MsgSimulationMint "0xfeed" 100)].
Proof.
  cbn zeta. split; [reflexivity|].
  refine (proj1 (proj2 (X11_same_transaction_once RefRuntime.rt (fun _ => env_ok) 0 ev_a
            {| transactionHash := transactionHash ev_a; args := lock_args "0xbeef" 7 80001;
               blockNumber := 5; logIndex := 1 |}
            (fresh None) "0xfeed" 100 80001 eq_refl _ _ _ _ _ eq_refl _))).
  - apply not_elem_of_empty.
  - repeat split.
  - discriminate.
  - split; [lia|reflexivity].
  - discriminate.
  - right. exists (Some "20"). reflexivity.
Defined.

(** X12: when the node's height is not above the block cursor (equal to it
    or below it), the pass scans nothing: the cursor, the dedup set and the
    file stay as they are, no event is handed to [process_event], and the
    pass sleeps for the poll interval. *)
Theorem X12_nothing_new (rt : runtime) (env : cycle_env) (s : state) (latest : Z) :
  block_number env = Ret latest ->
  latest <= last_processed_block s ->
  let s' := exec (listen_pass rt env) s in
  last_processed_block s' = last_processed_block s /\
  processed_txs s' = processed_txs s /\
  db_file s' = db_file s /\
  entered (trace s') = entered (trace s) /\
  trace s' = trace s ++ [Logged DEBUG MsgNoNewBlocks; Slept (poll_interval s)].
Proof.
  intros Hq Hle. cbn zeta. unfold exec.
  rewrite listen_pass_unfold, listen_try_unfold, Hq.
  destruct (Z.gtb_spec latest (last_processed_block s)) as [Hgt|_]; [lia|].
  cbn. repeat split; [book_simpl; reflexivity|rewrite <- app_assoc; reflexivity].
Qed.

Lemma X12_nothing_new_witness :
  block_number (cycle_ok 0 [ev_a]) = Ret 0 /\
  0 <= last_processed_block (fresh None) /\
  entered (trace (exec (listen_pass RefRuntime.rt (cycle_ok 0 [ev_a])) (fresh None)))
  = entered (trace (fresh None)).
Proof.
  assert (Hle : 0 <= last_processed_block (fresh None)) by (cbn; lia).
  split; [reflexivity|]. split; [exact Hle|].
  exact (proj1 (proj2 (proj2 (proj2
           (X12_nothing_new RefRuntime.rt (cycle_ok 0 [ev_a]) (fresh None) 0 eq_refl Hle))))).
Defined.

Lemma process_events_ext rt envs envs' events :
  (forall i, envs' i = envs i) ->
  forall i s, process_events rt envs' i events s = process_events rt envs i events s.
Proof.
  intros Hext. induction events as [|ev rest IH]; intros i s; [reflexivity|].
  cbn [process_events]. unfold bind. rewrite Hext.
  destruct (process_event rt (envs i) ev s) as [[[]|e] s1]; [apply IH|reflexivity].
Qed.

(** X13: a pass asks the event filter for one range only, from the block
    after the cursor to the reported height: two environments that agree on
    the height, on that range and on what happens while the events are
    processed make the pass behave the same, whatever the filter would answer
    for other ranges. *)
Theorem X13_scanned_range (rt : runtime) (env env' : cycle_env) (s : state) :
  block_number env' = block_number env ->
  (forall i, event_envs env' i = event_envs env i) ->
  (forall latest, block_number env = Ret latest ->
                  entries env' (last_processed_block s + 1) latest
                  = entries env (last_processed_block s + 1) latest) ->
  listen_pass rt env' s = listen_pass rt env s.
Proof.
  intros Hq Henvs Hrange.
  rewrite !listen_pass_unfold, !listen_try_unfold, Hq.
  destruct (block_number env) as [latest|e]; [|reflexivity].
  destruct (latest >? last_processed_block s)%Z; [|reflexivity]. cbv zeta.
  rewrite (Hrange latest eq_refl).
  destruct (entries env (last_processed_block s + 1) latest) as [events|e]; [|reflexivity].
  assert (Hh : forall st,
             handle_entries rt (event_envs env') (last_processed_block s + 1) latest events st
             = handle_entries rt (event_envs env) (last_processed_block s + 1) latest events st).
  { intros st. destruct events as [|ev rest]; [reflexivity|].
    apply process_events_ext. exact Henvs. }
  rewrite Hh. reflexivity.
Qed.

Lemma X13_scanned_range_witness :
  let env' := {| block_number := Ret 5;
                 entries := fun from_block to_block =>
                   if ((from_block =? 1) && (to_block =? 5))%Z then Ret [ev_a]
                   else Raise (OtherError "Timeout");
                 event_envs := fun _ => env_ok |} in
  block_number env' = block_number (cycle_ok 5 [ev_a]) /\
  listen_pass RefRuntime.rt env' (fresh None)
  = listen_pass RefRuntime.rt (cycle_ok 5 [ev_a]) (fresh None).
Proof.
  cbn zeta. split; [reflexivity|].
  apply X13_scanned_range; [reflexivity|reflexivity|].
  intros latest Hq. inversion Hq; subst latest. reflexivity.
Defined.

(** X14: a pass that finds the height above the cursor and whose [try] ends
    without an exception moves the cursor to that height, after handing every
    returned entry to [process_event]: entries that were skipped as
    malformed, as aimed at another chain or as already processed are behind
    the cursor too and are not asked for again. *)
Theorem X14_completed_pass (rt : runtime) (env : cycle_env) (s : state) (latest : Z) :
  block_number env = Ret latest ->
  last_processed_block s < latest ->
  returns (outcome (listen_try rt env) s) = true ->
  let s' := exec (listen_pass rt env) s in
  last_processed_block s' = latest /\
  exists events,
    entries env (last_processed_block s + 1) latest = Ret events /\
    entered (trace s') = entered (trace s) ++ events /\
    sleeps (trace s') = sleeps (trace s) ++ [poll_interval s].
Proof.
  intros Hq Hlt Hok. cbn zeta.
  destruct (listen_pass_frame rt env s) as (_ & _ & _ & Hsl & _).
  cbn zeta in Hsl. rewrite Hok in Hsl.
  destruct (listen_pass_entered rt env s) as (handed & Hen & Hrange & _).
  cbn zeta in Hen.
  unfold exec, outcome in *. rewrite listen_pass_unfold in *.
  destruct (listen_try_view rt env s)
    as [e Hq1|l1 Hq1 Hle|l1 e Hq1 Hlt1 He1|l1 events e s1 Hq1 Hlt1 He1 Hrun
        |l1 events s1 Hq1 Hlt1 He1 Hrun]; cbn [fst snd returns] in *;
    try discriminate Hok; try congruence.
  - assert (l1 = latest) by congruence. subst l1. lia.
  - assert (l1 = latest) by congruence. subst l1.
    split; [reflexivity|]. exists events. split; [exact He1|]. split; [|exact Hsl].
    destruct (Hrange latest events Hq He1) as [_ Hall].
    rewrite Hen, (Hall Hlt eq_refl). reflexivity.
Qed.

Lemma X14_completed_pass_witness :
  block_number (cycle_ok 5 [ev_no_amount; ev_other_chain]) = Ret 5 /\
  last_processed_block (fresh None) < 5 /\
  last_processed_block
    (exec (listen_pass RefRuntime.rt (cycle_ok 5 [ev_no_amount; ev_other_chain])) (fresh None))
  = 5.
Proof.
  assert (Hlt : last_processed_block (fresh None) < 5) by (cbn; lia).
  split; [reflexivity|]. split; [exact Hlt|].
  refine (proj1 (X14_completed_pass RefRuntime.rt (cycle_ok 5 [ev_no_amount; ev_other_chain])
                   (fresh None) 5 eq_refl Hlt _)).
  vm_compute. reflexivity.
Defined.

Lemma listen_pass_grows rt env s :
  processed_txs s ⊆ processed_txs (exec (listen_pass rt env) s).
Proof.
  unfold exec. rewrite listen_pass_unfold.
  destruct (listen_try_frame rt env s) as (_ & _ & Hsub & _).
  cbn zeta in Hsub.
  destruct (listen_try rt env s) as [[[]|e] s1]; exact Hsub.
Qed.

(** X15: the dedup set is append-only: over any number of passes no id
    leaves it, so an id that [is_processed] reports once is reported for the
    rest of the process. *)
Theorem X15_dedup_append_only (rt : runtime) (envs : list cycle_env) (s : state) :
  processed_txs s ⊆ processed_txs (exec (listen rt envs) s) /\
  (forall t, outcome (is_processed t) s = Ret true ->
             outcome (is_processed t) (exec (listen rt envs) s) = Ret true).
Proof.
  assert (Hsub : forall envs s, processed_txs s ⊆ processed_txs (exec (listen rt envs) s)).
  { clear. intros envs. induction envs as [|env rest IH]; intros s; [reflexivity|].
    pose proof (listen_pass_grows rt env s) as Hpass.
    pose proof (listen_pass_frame rt env s) as (Hret & _).
    unfold exec, outcome in *. cbn [listen]. unfold bind.
    destruct (listen_pass rt env s) as [r s1]. cbn [fst snd] in *. subst r.
    etransitivity; [exact Hpass|apply IH]. }
  split; [apply Hsub|].
  intros t. unfold outcome. rewrite !is_processed_spec. cbn [fst].
  intros Hin. inversion Hin as [Hb]. rewrite Hb.
  apply bool_decide_eq_true in Hb.
  rewrite bool_decide_true; [reflexivity|]. apply (Hsub envs s), Hb.
Qed.

(** X16: no exception leaves the loop, and every pass sleeps exactly once,
    for the poll interval or for twice the poll interval. *)
Theorem X16_loop_survives (rt : runtime) (envs : list cycle_env) (s : state) :
  outcome (listen rt envs) s = Ret tt /\
  exists durations,
    sleeps (trace (exec (listen rt envs) s)) = sleeps (trace s) ++ durations /\
    List.length durations = List.length envs /\
    Forall (fun d => d = poll_interval s \/ d = (poll_interval s * 2)%N) durations.
Proof.
  revert s. induction envs as [|env rest IH]; intros s.
  - split; [reflexivity|]. exists []. cbn. rewrite app_nil_r. auto.
  - destruct (listen_pass_frame rt env s) as (Hret & Hpoll & _ & Hsl & _).
    cbn zeta in Hpoll, Hsl.
    destruct (IH (exec (listen_pass rt env) s)) as (Hret2 & durations & Hsl2 & Hlen & Hall).
    unfold exec, outcome in *. cbn [listen]. unfold bind.
    destruct (listen_pass rt env s) as [r s1]. cbn [fst snd] in *. subst r.
    split; [exact Hret2|].
    exists ((if returns (listen_try rt env s).1 then poll_interval s
             else (poll_interval s * 2)%N) :: durations).
    split; [rewrite Hsl2, Hsl, <- app_assoc; reflexivity|].
    split; [cbn; rewrite Hlen; reflexivity|].
    constructor.
    + destruct (returns (listen_try rt env s).1); auto.
    + rewrite Hpoll in Hall. exact Hall.
Qed.

(** ** Start-up *)

Lemma StateDB_init_db_file rt r s : db_file (exec (StateDB_init rt r) s) = db_file s.
Proof.
  unfold StateDB_init, exec. unfold bind.
  destruct (_load_cases rt r s) as [H|[[e H]|[[txs H]|[e H]]]]; rewrite H; reflexivity.
Qed.


Ltac unfold_boot :=
  unfold bindB, retB, raiseB, exitB, liftR, liftM, logB, printB, try_exceptB in *.

Lemma connector_init_disconnected name url address abi n p :
  is_connected n = false ->
  BlockchainConnector_init name url address abi n p
  = (Raised (OtherError "ConnectionError"), p).
Proof. intros H. unfold BlockchainConnector_init. rewrite H. reflexivity. Qed.

Lemma connector_init_core name url address abi n p :
  core (snd (BlockchainConnector_init name url address abi n p)) = core p.
Proof.
  unfold BlockchainConnector_init. unfold_boot.
  destruct (is_connected n); [|reflexivity]. cbn.
  destruct (node_chain_id n); [|reflexivity]. cbn.
  destruct (truthy_str address && truthy_str abi); [|reflexivity].
  destruct (contract_creation n); reflexivity.
Qed.

(** A connector without a configured contract, on a node that answers. *)
Lemma connector_init_plain name url address abi n p chain :
  is_connected n = true ->
  node_chain_id n = Ret chain ->
  truthy_str address && truthy_str abi = false ->
  BlockchainConnector_init name url address abi n p
  = (Returned {| connector_name := name; contract := None |},
     {| core := core p;
        console := console p ++ [BootLogged INFO (BootConnected name url chain)] |}).
Proof.
  intros Hc Hq Ht. unfold BlockchainConnector_init. unfold_boot.
  rewrite Hc, Hq, Ht. reflexivity.
Qed.

(** A connector with a configured contract, on a node that answers. *)
Lemma connector_init_contract name url address abi n p chain :
  is_connected n = true ->
  node_chain_id n = Ret chain ->
  truthy_str address && truthy_str abi = true ->
  BlockchainConnector_init name url address abi n p
  = match contract_creation n with
    | Ret a =>
        (Returned {| connector_name := name; contract := Some a |},
         {| core := core p;
            console := (console p ++ [BootLogged INFO (BootConnected name url chain)])
                       ++ [BootLogged INFO (BootContractCreated a name)] |})
    | Raise e =>
        (Raised e,
         {| core := core p;
            console := (console p ++ [BootLogged INFO (BootConnected name url chain)])
                       ++ [BootLogged ERROR (BootContractFailed e)] |})
    end.
Proof.
  intros Hc Hq Ht. unfold BlockchainConnector_init. unfold_boot.
  rewrite Hc, Hq, Ht. cbn. destruct (contract_creation n); reflexivity.
Qed.

Lemma _get_start_block_resolved cfg query p :
  _get_start_block cfg query p
  = match resolved_start cfg query with
    | Some block =>
        (Returned block,
         {| core := core p;
            console := console p ++
              [BootLogged INFO (match cfg with
                                | StartBlock _ => BootStartConfigured block
                                | StartOther _ => BootStartLatest block
                                end)] |})
    | None =>
        (Exited 1,
         {| core := snd (get_latest_block_number query (core p));
            console := console p ++ [BootLogged ERROR BootStartUnavailable] |})
    end.
Proof.
  unfold _get_start_block. destruct cfg as [block|text]; [reflexivity|].
  destruct query as [block|e]; reflexivity.
Qed.

Lemma banner_run p :
  (printB;; printB;; printB;; printB;; printB)%boot p = (Returned tt, after_banner p).
Proof.
  unfold after_banner. unfold_boot. cbn. rewrite <- !app_assoc. reflexivity.
Qed.

Lemma main_unfold rt cfg env envs p :
  main rt cfg env envs p
  = if contains "YOUR_INFURA_PROJECT_ID" (rpc_url (source_chain cfg)) then
      (Ended 1, add_line (BootLogged ERROR BootPlaceholder) (after_banner p))
    else
      match CrossChainEventListener_init rt cfg env (after_banner p) with
      | (Returned l, p1) =>
          match listen_method rt l envs p1 with
          | (Returned _, p2) => (Looping, p2)
          | (Exited code, p2) => (Ended code, p2)
          | (Raised e, p2) => (Ended 0, add_line (startup_error_line e) p2)
          end
      | (Raised e, p1) => (Ended 0, add_line (startup_error_line e) p1)
      | (Exited code, p1) => (Ended code, p1)
      end.
Proof.
  unfold main. cbv zeta. rewrite banner_run.
  destruct (contains _ _); [reflexivity|].
  unfold bindB at 1.
  destruct (CrossChainEventListener_init rt cfg env (after_banner p)) as [[l|e|code] p1].
  - destruct (listen_method rt l envs p1) as [[[]|e|code] p2]; try reflexivity.
    unfold startup_error_line. destruct (is_connection_error e); reflexivity.
  - unfold startup_error_line. destruct (is_connection_error e); reflexivity.
  - reflexivity.
Qed.

Lemma init_unfold rt cfg env p :
  CrossChainEventListener_init rt cfg env p
  = match BlockchainConnector_init
            (chain_name (source_chain cfg)) (rpc_url (source_chain cfg))
            (bridge_contract_address (source_chain cfg))
            (bridge_contract_abi (source_chain cfg)) (source_node env) p with
    | (Returned src, p1) =>
        match BlockchainConnector_init
                (chain_name (destination_chain cfg)) (rpc_url (destination_chain cfg))
                None None (destination_node env) p1 with
        | (Returned dst, p2) =>
            match StateDB_init rt (db_read env) (core p2) with
            | (Ret _, s3) =>
                match _get_start_block (start_block cfg) (start_query env)
                        {| core := s3; console := console p2 |} with
                | (Returned start, p4) =>
                    (Returned {| source_connector := src; destination_connector := dst |},
                     {| core := set_poll_interval (poll_interval_seconds cfg)
                                  (set_last_processed_block start (core p4));
                        console := console p4 |})
                | (Raised e, p4) => (Raised e, p4)
                | (Exited code, p4) => (Exited code, p4)
                end
            | (Raise e, s3) => (Raised e, {| core := s3; console := console p2 |})
            end
        | (Raised e, p2) => (Raised e, p2)
        | (Exited code, p2) => (Exited code, p2)
        end
    | (Raised e, p1) => (Raised e, p1)
    | (Exited code, p1) => (Exited code, p1)
    end.
Proof.
  unfold CrossChainEventListener_init. unfold bindB at 1.
  destruct (BlockchainConnector_init _ _ _ _ (source_node env) p) as [[src|e|code] p1];
    try reflexivity.
  unfold bindB at 1.
  destruct (BlockchainConnector_init _ _ None None (destination_node env) p1)
    as [[dst|e|code] p2]; try reflexivity.
  unfold bindB at 1. unfold liftM at 1.
  destruct (StateDB_init rt (db_read env) (core p2)) as [[[]|e] s3]; reflexivity.
Qed.

(** X17: when the source chain's RPC URL still contains the placeholder
    YOUR_INFURA_PROJECT_ID, as in the shipped CONFIG, the script logs one
    error and exits with status 1 straight after its banner: no node is
    contacted, the state file is not read, and the loop is never entered. *)
Theorem X17_placeholder_exit (rt : runtime) (cfg : config) (env : boot_env)
    (envs : list cycle_env) (p : process) :
  contains "YOUR_INFURA_PROJECT_ID" (rpc_url (source_chain cfg)) = true ->
  main rt cfg env envs p
  = (Ended 1,
     {| core := core p;
        console := console (after_banner p) ++ [BootLogged ERROR BootPlaceholder] |}).
Proof. intros H. rewrite main_unfold, H. reflexivity. Qed.

Lemma X17_placeholder_exit_witness :
  contains "YOUR_INFURA_PROJECT_ID" (rpc_url (source_chain CONFIG)) = true /\
  fst (main RefRuntime.rt CONFIG (boot_ok 10) [cycle_ok 11 [ev_a]] (boot None)) = Ended 1.
Proof.
  assert (H : contains "YOUR_INFURA_PROJECT_ID" (rpc_url (source_chain CONFIG)) = true)
    by (vm_compute; reflexivity).
  split; [exact H|].
  rewrite (X17_placeholder_exit RefRuntime.rt CONFIG (boot_ok 10) [cycle_ok 11 [ev_a]]
             (boot None) H).
  reflexivity.
Defined.

Lemma source_connector_returns (cfg : config) (env : boot_env) (p : process) :
  node_answers (source_node env) ->
  (contract_configured (source_chain cfg) ->
   returns (contract_creation (source_node env)) = true) ->
  exists src p1,
    BlockchainConnector_init
      (chain_name (source_chain cfg)) (rpc_url (source_chain cfg))
      (bridge_contract_address (source_chain cfg))
      (bridge_contract_abi (source_chain cfg)) (source_node env) p = (Returned src, p1) /\
    core p1 = core p /\
    (contract src = None <-> ~ contract_configured (source_chain cfg)).
Proof.
  intros [Hc Hq] Hcontract. unfold contract_configured in *.
  destruct (node_chain_id (source_node env)) as [chain|e] eqn:Hchain; [|discriminate Hq].
  destruct (truthy_str (bridge_contract_address (source_chain cfg))
            && truthy_str (bridge_contract_abi (source_chain cfg))) eqn:Ht.
  - rewrite (connector_init_contract _ _ _ _ _ p chain Hc Hchain Ht).
    specialize (Hcontract eq_refl).
    destruct (contract_creation (source_node env)) as [a|e]; [|discriminate Hcontract].
    eexists _, _. split; [reflexivity|]. split; [reflexivity|].
    cbn. split; [discriminate|intros H; exfalso; apply H; reflexivity].
  - rewrite (connector_init_plain _ _ _ _ _ p chain Hc Hchain Ht).
    eexists _, _. split; [reflexivity|]. split; [reflexivity|].
    cbn. split; [intros _; discriminate|reflexivity].
Qed.

Lemma last_add_line a p : last (console (add_line a p)) = Some a.
Proof. cbn. apply last_snoc. Qed.

(** X18: when either node is not connected at start-up, the script logs the
    connection error and ends normally, with exit status 0, not 1.  The
    StateDB has not been constructed: the listener's state and the file are
    untouched. *)
Theorem X18_connection_failure (rt : runtime) (cfg : config) (env : boot_env)
    (envs : list cycle_env) (p : process) :
  contains "YOUR_INFURA_PROJECT_ID" (rpc_url (source_chain cfg)) = false ->
  is_connected (source_node env) = false \/
  (node_answers (source_node env) /\
   (contract_configured (source_chain cfg) ->
    returns (contract_creation (source_node env)) = true) /\
   is_connected (destination_node env) = false) ->
  let r := main rt cfg env envs p in
  fst r = Ended 0 /\
  core (snd r) = core p /\
  last (console (snd r))
  = Some (BootLogged ERROR (BootConnectionError (OtherError "ConnectionError"))).
Proof.
  intros Hurl Hnodes. cbn zeta. rewrite main_unfold, Hurl, init_unfold.
  destruct Hnodes as [Hsrc|(Hsrc & Hcontract & Hdst)].
  - rewrite (connector_init_disconnected _ _ _ _ _ _ Hsrc). cbn [fst snd].
    split; [reflexivity|]. split; [reflexivity|]. apply last_add_line.
  - destruct (source_connector_returns cfg env (after_banner p) Hsrc Hcontract)
      as (src & p1 & Hinit & Hcore & _).
    rewrite Hinit, (connector_init_disconnected _ _ _ _ _ _ Hdst). cbn [fst snd].
    split; [reflexivity|]. split; [exact Hcore|]. apply last_add_line.
Qed.

Lemma X18_connection_failure_witness :
  let env := {| source_node := node_ok 5;
                destination_node := {| is_connected := false; node_chain_id := Ret 80001;
                                       contract_creation := Ret "0xB41d9e" |};
                db_read := ReadOk; start_query := Ret 10 |} in
  contains "YOUR_INFURA_PROJECT_ID"
    (rpc_url (source_chain (config_ok (StartOther "latest")))) = false /\
  fst (main RefRuntime.rt (config_ok (StartOther "latest")) env [] (boot None)) = Ended 0.
Proof.
  cbn zeta.
  assert (H : contains "YOUR_INFURA_PROJECT_ID"
                (rpc_url (source_chain (config_ok (StartOther "latest")))) = false)
    by (vm_compute; reflexivity).
  split; [exact H|].
  refine (proj1 (X18_connection_failure RefRuntime.rt (config_ok (StartOther "latest")) _ []
                   (boot None) H _)).
  right. repeat split.
Defined.

Lemma listen_returns rt envs : forall s, outcome (listen rt envs) s = Ret tt.
Proof.
  induction envs as [|env rest IH]; intros s; [reflexivity|].
  pose proof (listen_pass_frame rt env s) as (Hret & _).
  specialize (IH (exec (listen_pass rt env) s)).
  unfold exec, outcome in *. cbn [listen]. unfold bind.
  destruct (listen_pass rt env s) as [r s1]. cbn [fst snd] in *. subst r. exact IH.
Qed.

(** The constructor once both connectors are built. *)
Lemma init_after_connectors rt cfg env p :
  node_answers (source_node env) ->
  (contract_configured (source_chain cfg) ->
   returns (contract_creation (source_node env)) = true) ->
  node_answers (destination_node env) ->
  exists src dst lines,
    (contract src = None <-> ~ contract_configured (source_chain cfg)) /\
    CrossChainEventListener_init rt cfg env p
    = match StateDB_init rt (db_read env) (core p) with
      | (Ret _, s3) =>
          match _get_start_block (start_block cfg) (start_query env)
                  {| core := s3; console := lines |} with
          | (Returned start, p4) =>
              (Returned {| source_connector := src; destination_connector := dst |},
               {| core := set_poll_interval (poll_interval_seconds cfg)
                            (set_last_processed_block start (core p4));
                  console := console p4 |})
          | (Raised e, p4) => (Raised e, p4)
          | (Exited code, p4) => (Exited code, p4)
          end
      | (Raise e, s3) => (Raised e, {| core := s3; console := lines |})
      end.
Proof.
  intros Hsrc Hcontract [Hc Hq].
  destruct (source_connector_returns cfg env p Hsrc Hcontract)
    as (src & p1 & Hinit & Hcore & Hnone).
  destruct (node_chain_id (destination_node env)) as [chain|e] eqn:Hchain; [|discriminate Hq].
  exists src, {| connector_name := chain_name (destination_chain cfg); contract := None |}.
  eexists. split; [exact Hnone|].
  rewrite init_unfold, Hinit.
  rewrite (connector_init_plain _ _ None None _ p1 chain Hc Hchain eq_refl).
  cbn [core console]. rewrite Hcore. reflexivity.
Qed.

(** X19: with a start block that is not an integer (the shipped 'latest'),
    a failing height query at start-up ends the script with exit status 1:
    [exit(1)] is not an Exception, so neither handler of the main block
    catches it.  The state file has been read by then, but not written. *)
Theorem X19_start_block_unavailable (rt : runtime) (cfg : config) (env : boot_env)
    (envs : list cycle_env) (p : process) :
  contains "YOUR_INFURA_PROJECT_ID" (rpc_url (source_chain cfg)) = false ->
  node_answers (source_node env) ->
  (contract_configured (source_chain cfg) ->
   returns (contract_creation (source_node env)) = true) ->
  node_answers (destination_node env) ->
  returns (outcome (StateDB_init rt (db_read env)) (core p)) = true ->
  resolved_start (start_block cfg) (start_query env) = None ->
  let r := main rt cfg env envs p in
  fst r = Ended 1 /\
  last (console (snd r)) = Some (BootLogged ERROR BootStartUnavailable) /\
  db_file (core (snd r)) = db_file (core p).
Proof.
  intros Hurl Hsrc Hcontract Hdst Hdb Hstart. cbn zeta.
  rewrite main_unfold, Hurl.
  destruct (init_after_connectors rt cfg env (after_banner p) Hsrc Hcontract Hdst)
    as (src & dst & lines & _ & Hinit).
  rewrite Hinit. cbn [core after_banner].
  pose proof (StateDB_init_db_file rt (db_read env) (core p)) as Hfile.
  unfold exec in Hfile.
  unfold outcome in Hdb.
  destruct (StateDB_init rt (db_read env) (core p)) as [[[]|e] s3]; [|discriminate Hdb].
  rewrite _get_start_block_resolved, Hstart.
  cbn [fst snd core console]. split; [reflexivity|]. split; [apply last_snoc|].
  destruct (start_query env); cbn; exact Hfile.
Qed.

Lemma X19_start_block_unavailable_witness :
  let env := {| source_node := node_ok 5; destination_node := node_ok 80001;
                db_read := ReadOk; start_query := Raise (OtherError "Timeout") |} in
  resolved_start (start_block (config_ok (StartOther "latest"))) (start_query env) = None /\
  fst (main RefRuntime.rt (config_ok (StartOther "latest")) env [cycle_ok 11 [ev_a]]
         (boot None)) = Ended 1.
Proof.
  cbn zeta. split; [reflexivity|].
  refine (proj1 (X19_start_block_unavailable RefRuntime.rt (config_ok (StartOther "latest"))
                   {| source_node := node_ok 5; destination_node := node_ok 80001;
                      db_read := ReadOk; start_query := Raise (OtherError "Timeout") |}
                   [cycle_ok 11 [ev_a]] (boot None) _ _ _ _ _ eq_refl)).
  - vm_compute. reflexivity.
  - split; reflexivity.
  - intros _. reflexivity.
  - split; reflexivity.
  - vm_compute. reflexivity.
Defined.

(** X20: when both nodes answer, the contract is configured and can be
    built, the StateDB loads and the start block resolves to [n] (the
    configured integer, for which the node is not asked, or else the node's
    current height), the script enters the loop with the cursor at [n], the
    configured poll interval and the dedup set loaded from the file; the
    first block it will ever scan is [n + 1]. *)
Theorem X20_successful_start (rt : runtime) (cfg : config) (env : boot_env)
    (envs : list cycle_env) (p : process) (n : Z) :
  contains "YOUR_INFURA_PROJECT_ID" (rpc_url (source_chain cfg)) = false ->
  node_answers (source_node env) ->
  contract_configured (source_chain cfg) ->
  returns (contract_creation (source_node env)) = true ->
  node_answers (destination_node env) ->
  returns (outcome (StateDB_init rt (db_read env)) (core p)) = true ->
  resolved_start (start_block cfg) (start_query env) = Some n ->
  let loaded := exec (StateDB_init rt (db_read env)) (core p) in
  let r := main rt cfg env envs p in
  fst r = Looping /\
  core (snd r)
  = exec (listen rt envs)
      (set_poll_interval (poll_interval_seconds cfg) (set_last_processed_block n loaded)).
Proof.
  intros Hurl Hsrc Hconf Hcontract Hdst Hdb Hstart. cbn zeta.
  rewrite main_unfold, Hurl.
  destruct (init_after_connectors rt cfg env (after_banner p) Hsrc (fun _ => Hcontract) Hdst)
    as (src & dst & lines & Hnone & Hinit).
  rewrite Hinit. cbn [core after_banner].
  unfold outcome, exec in *.
  destruct (StateDB_init rt (db_read env) (core p)) as [[[]|e] s3]; [|discriminate Hdb].
  rewrite _get_start_block_resolved, Hstart. cbn [fst snd core console].
  unfold listen_method. cbn [source_connector].
  destruct (contract src) as [address|] eqn:Hc.
  2:{ exfalso. apply (proj1 Hnone); [reflexivity|exact Hconf]. }
  unfold_boot. cbn [core console].
  pose proof (listen_returns rt envs
                (set_poll_interval (poll_interval_seconds cfg)
                   (set_last_processed_block n s3))) as Hret.
  unfold outcome in Hret.
  destruct (listen rt envs _) as [r s']. cbn [fst snd] in *. subst r.
  split; reflexivity.
Qed.

Lemma X20_successful_start_witness :
  resolved_start (start_block (config_ok (StartBlock 7)))
    (start_query (boot_ok 10)) = Some 7 /\
  fst (main RefRuntime.rt (config_ok (StartBlock 7)) (boot_ok 10) [cycle_ok 11 [ev_a]]
         (boot None)) = Looping.
Proof.
  split; [reflexivity|].
  refine (proj1 (X20_successful_start RefRuntime.rt (config_ok (StartBlock 7)) (boot_ok 10)
                   [cycle_ok 11 [ev_a]] (boot None) 7 _ _ _ _ _ _ eq_refl)).
  - vm_compute. reflexivity.
  - split; reflexivity.
  - reflexivity.
  - reflexivity.
  - split; reflexivity.
  - vm_compute. reflexivity.
Defined.

(** X21: when the source chain's contract address or ABI is None or empty,
    the connector is built without a contract and the constructor completes
    (the file is read, the start block resolved); the first line of [listen]
    then fails on [contract.address] with AttributeError, which the main
    block logs as a fatal error before ending with exit status 0.  No pass of
    the loop runs. *)
Theorem X21_missing_contract (rt : runtime) (cfg : config) (env : boot_env)
    (envs : list cycle_env) (p : process) (n : Z) :
  contains "YOUR_INFURA_PROJECT_ID" (rpc_url (source_chain cfg)) = false ->
  node_answers (source_node env) ->
  ~ contract_configured (source_chain cfg) ->
  node_answers (destination_node env) ->
  returns (outcome (StateDB_init rt (db_read env)) (core p)) = true ->
  resolved_start (start_block cfg) (start_query env) = Some n ->
  let loaded := exec (StateDB_init rt (db_read env)) (core p) in
  let r := main rt cfg env envs p in
  fst r = Ended 0 /\
  last (console (snd r)) = Some (BootLogged ERROR (BootFatal AttributeError)) /\
  core (snd r)
  = set_poll_interval (poll_interval_seconds cfg) (set_last_processed_block n loaded).
Proof.
  intros Hurl Hsrc Hconf Hdst Hdb Hstart. cbn zeta.
  rewrite main_unfold, Hurl.
  destruct (init_after_connectors rt cfg env (after_banner p) Hsrc
              (fun H => False_ind _ (Hconf H)) Hdst)
    as (src & dst & lines & Hnone & Hinit).
  rewrite Hinit. cbn [core after_banner].
  unfold outcome, exec in *.
  destruct (StateDB_init rt (db_read env) (core p)) as [[[]|e] s3]; [|discriminate Hdb].
  rewrite _get_start_block_resolved, Hstart. cbn [fst snd core console].
  unfold listen_method. cbn [source_connector].
  rewrite (proj2 Hnone Hconf). unfold raiseB. cbn [fst snd].
  split; [reflexivity|]. split; [apply last_add_line|reflexivity].
Qed.

Lemma X21_missing_contract_witness :
  ~ contract_configured (source_chain config_no_address) /\
  fst (main RefRuntime.rt config_no_address (boot_ok 10) [cycle_ok 11 [ev_a]] (boot None))
  = Ended 0.
Proof.
  assert (Hconf : ~ contract_configured (source_chain config_no_address)) by discriminate.
  split; [exact Hconf|].
  refine (proj1 (X21_missing_contract RefRuntime.rt config_no_address (boot_ok 10)
                   [cycle_ok 11 [ev_a]] (boot None) 7 _ _ Hconf _ _ eq_refl)).
  - vm_compute. reflexivity.
  - split; reflexivity.
  - split; reflexivity.
  - vm_compute. reflexivity.
Defined.

Lemma _get_start_block_db_file cfg query p :
  db_file (core (snd (_get_start_block cfg query p))) = db_file (core p).
Proof.
  rewrite _get_start_block_resolved.
  destruct (resolved_start cfg query); [reflexivity|]. destruct query; reflexivity.
Qed.

(** X22: start-up never writes the state file: whatever the nodes answer and
    however the constructor ends, the file is the same when the loop is about
    to begin (or the script has ended) as it was when the script started. *)
Theorem X22_startup_keeps_file (rt : runtime) (cfg : config) (env : boot_env)
    (p : process) :
  db_file (core (snd (main rt cfg env [] p))) = db_file (core p).
Proof.
  rewrite main_unfold.
  destruct (contains _ _); [reflexivity|].
  assert (Hinit : db_file (core (snd (CrossChainEventListener_init rt cfg env (after_banner p))))
                  = db_file (core p)).
  { rewrite init_unfold.
    pose proof (connector_init_core (chain_name (source_chain cfg))
                  (rpc_url (source_chain cfg)) (bridge_contract_address (source_chain cfg))
                  (bridge_contract_abi (source_chain cfg)) (source_node env) (after_banner p))
      as H1.
    destruct (BlockchainConnector_init _ _ _ _ (source_node env) (after_banner p))
      as [[src|e|code] p1]; cbn [snd] in *; try (rewrite H1; reflexivity).
    pose proof (connector_init_core (chain_name (destination_chain cfg))
                  (rpc_url (destination_chain cfg)) None None (destination_node env) p1)
      as H2.
    destruct (BlockchainConnector_init _ _ None None (destination_node env) p1)
      as [[dst|e|code] p2]; cbn [snd] in *; try (rewrite H2, H1; reflexivity).
    pose proof (StateDB_init_db_file rt (db_read env) (core p2)) as H3. unfold exec in H3.
    destruct (StateDB_init rt (db_read env) (core p2)) as [[[]|e] s3]; cbn [snd] in *.
    2:{ cbn. rewrite H3, H2, H1. reflexivity. }
    pose proof (_get_start_block_db_file (start_block cfg) (start_query env)
                  {| core := s3; console := console p2 |}) as H4.
    destruct (_get_start_block _ _ _) as [[start|e|code] p4]; cbn in H4 |- *;
      rewrite H4, H3, H2, H1; reflexivity. }
  destruct (CrossChainEventListener_init rt cfg env (after_banner p)) as [[l|e|code] p1];
    cbn [snd] in Hinit; try exact Hinit.
  unfold listen_method.
  destruct (contract (source_connector l)); unfold_boot; cbn; exact Hinit.
Qed.

(** ** enforce_types *)

Section EnforceTypesMore.
Context {value annot call : Type}.
Context (isinstance : value -> annot -> res bool).
Context (type_name : annot -> option string).

Lemma check_instance_passed v a :
  check_instance isinstance type_name v a = Ret tt -> isinstance v a = Ret true.
Proof.
  unfold check_instance. destruct (isinstance v a) as [[|]|e]; try discriminate.
  - reflexivity.
  - destruct (type_name a); discriminate.
Qed.

Lemma check_arguments_passed (f : func value annot call) bound :
  check_arguments isinstance type_name f bound = Ret tt ->
  arguments_are_instances isinstance f bound.
Proof.
  induction bound as [|[name v] rest IH]; intros Hcheck n w a Hin Ha.
  { inversion Hin. }
  cbn in Hcheck.
  destruct (annotations f !! name) as [a0|] eqn:Ha0.
  - destruct (check_instance isinstance type_name v a0) as [[]|e] eqn:Hi;
      [|discriminate Hcheck].
    apply elem_of_cons in Hin as [Heq|Hin].
    + inversion Heq; subst. rewrite Ha0 in Ha. inversion Ha; subst.
      apply check_instance_passed. exact Hi.
    + exact (IH Hcheck n w a Hin Ha).
  - apply elem_of_cons in Hin as [Heq|Hin].
    + inversion Heq; subst. rewrite Ha0 in Ha. discriminate Ha.
    + exact (IH Hcheck n w a Hin Ha).
Qed.

(** X23: whenever the wrapper returns a value, the call bound to the
    signature, every annotated argument passed [isinstance], the body ran
    exactly once, the value is what the body returned, and it passed
    [isinstance] against the return annotation if there is one. *)
Theorem X23_returned_means_checked (f : func value annot call) (c : call) (r : value) :
  call_outcome (enforce_types isinstance type_name f c) = Ret r ->
  exists bound,
    bind_arguments f c = Ret bound /\
    arguments_are_instances isinstance f bound /\
    run_body f c = Ret r /\
    result_is_instance isinstance f r /\
    body_runs (enforce_types isinstance type_name f c) = 1%nat.
Proof.
  unfold enforce_types. intros Hret.
  destruct (bind_arguments f c) as [bound|e]; [|discriminate Hret].
  exists bound. split; [reflexivity|].
  destruct (check_arguments isinstance type_name f bound) as [[]|e] eqn:Hcheck;
    [|discriminate Hret].
  split; [apply check_arguments_passed; exact Hcheck|].
  destruct (run_body f c) as [result|e]; [|discriminate Hret].
  unfold result_is_instance.
  destruct (annotations f !! "return") as [a|] eqn:Ha.
  - destruct (check_instance isinstance type_name result a) as [[]|e] eqn:Hi;
      [|discriminate Hret].
    cbn in Hret. inversion Hret; subst r.
    split; [reflexivity|]. split; [|reflexivity].
    intros a' Ha'. inversion Ha'; subst a'. apply check_instance_passed. exact Hi.
  - cbn in Hret. inversion Hret; subst r.
    split; [reflexivity|]. split; [|reflexivity]. intros a' Ha'. discriminate Ha'.
Qed.

(** X24: the wrapper runs the body at most once; it does not run it at all
    exactly when the call does not bind or an argument check fails, and in
    that case it raises. *)
Theorem X24_body_runs_once (f : func value annot call) (c : call) :
  let r := enforce_types isinstance type_name f c in
  (body_runs r <= 1)%nat /\
  (body_runs r = 1%nat <->
   exists bound, bind_arguments f c = Ret bound /\
                 check_arguments isinstance type_name f bound = Ret tt) /\
  (body_runs r = 0%nat -> returns (call_outcome r) = false).
Proof.
  cbn zeta. unfold enforce_types.
  destruct (bind_arguments f c) as [bound|e] eqn:Hb.
  2:{ cbn. split; [lia|]. split; [|reflexivity].
      split; [discriminate|intros (b & Hb' & _); discriminate Hb']. }
  destruct (check_arguments isinstance type_name f bound) as [[]|e] eqn:Hc.
  2:{ cbn. split; [lia|]. split; [|reflexivity].
      split; [discriminate|].
      intros (b & Hb' & Hc'). inversion Hb'; subst b. rewrite Hc in Hc'. discriminate Hc'. }
  assert (Hex : exists b, Ret bound = Ret b /\
                          check_arguments isinstance type_name f b = Ret tt)
    by (exists bound; auto).
  destruct (run_body f c) as [result|e];
    [destruct (annotations f !! "return") as [a|];
     [destruct (check_instance isinstance type_name result a) as [[]|e]|]|];
    cbn; (split; [lia|]); (split; [split; [intros _; exact Hex|reflexivity]|discriminate]).
Qed.

(** X25: a result that fails the return annotation (a class) is reported by
    TypeError only after the body has run: the call's effects have happened
    although the caller gets an exception. *)
Theorem X25_return_mismatch (f : func value annot call) (c : call)
    (bound : list (string * value)) (r : value) (a : annot) :
  bind_arguments f c = Ret bound ->
  arguments_are_instances isinstance f bound ->
  run_body f c = Ret r ->
  annotations f !! "return" = Some a ->
  is_class isinstance type_name a ->
  isinstance r a = Ret false ->
  enforce_types isinstance type_name f c
  = {| call_outcome := Raise TypeError; body_runs := 1 |}.
Proof.
  intros Hb Hargs Hbody Ha Hcls Hbad. unfold enforce_types.
  rewrite Hb, (check_arguments_ok isinstance type_name f bound Hargs), Hbody, Ha.
  rewrite (check_instance_mismatch isinstance type_name r a Hcls Hbad). reflexivity.
Qed.

Lemma check_arguments_unannotated (f : func value annot call) bound :
  annotations f = ∅ -> check_arguments isinstance type_name f bound = Ret tt.
Proof.
  intros Hempty. induction bound as [|[name v] rest IH]; [reflexivity|].
  cbn. rewrite Hempty, lookup_empty. exact IH.
Qed.

(** X26: around a function without any annotation the wrapper is
    transparent: every call that binds runs the body once and ends as the
    body ends, with its value or its exception. *)
Theorem X26_no_annotations (f : func value annot call) (c : call)
    (bound : list (string * value)) :
  annotations f = ∅ ->
  bind_arguments f c = Ret bound ->
  enforce_types isinstance type_name f c
  = {| call_outcome := run_body f c; body_runs := 1 |}.
Proof.
  intros Hempty Hb. unfold enforce_types.
  rewrite Hb, (check_arguments_unannotated f bound Hempty), Hempty, lookup_empty.
  destruct (run_body f c); reflexivity.
Qed.

(** X27: decorating twice changes nothing for the caller: the outcome of a
    call of [enforce_types(enforce_types(f))] is the outcome of the same call
    of [enforce_types(f)]. *)
Theorem X27_decorating_twice (f : func value annot call) (c : call) :
  call_outcome (enforce_types isinstance type_name (decorated isinstance type_name f) c)
  = call_outcome (enforce_types isinstance type_name f c).
Proof.
  unfold enforce_types at 1. cbn [decorated annotations bind_arguments run_body].
  assert (Hargs : forall bound,
            check_arguments isinstance type_name (decorated isinstance type_name f) bound
            = check_arguments isinstance type_name f bound).
  { induction bound as [|[name v] rest IH]; [reflexivity|]. cbn. rewrite IH. reflexivity. }
  unfold enforce_types.
  destruct (bind_arguments f c) as [bound|e]; [|reflexivity].
  rewrite Hargs.
  destruct (check_arguments isinstance type_name f bound) as [[]|e]; [|reflexivity].
  destruct (run_body f c) as [result|e]; [|reflexivity].
  destruct (annotations f !! "return") as [a|]; [|reflexivity].
  destruct (check_instance isinstance type_name result a) as [[]|e] eqn:Hi; cbn.
  - rewrite Hi. reflexivity.
  - reflexivity.
Qed.

End EnforceTypesMore.


Lemma X23_returned_means_checked_witness :
  call_outcome (enforce_types Py.isinstance Py.type_name Py.greet
                  [Py.VStr "Alice"; Py.VInt 30]) = Ret (Py.VStr "Hello, Alice") /\
  exists bound,
    bind_arguments Py.greet [Py.VStr "Alice"; Py.VInt 30] = Ret bound /\
    arguments_are_instances Py.isinstance Py.greet bound.
Proof.
  assert (H : call_outcome (enforce_types Py.isinstance Py.type_name Py.greet
                              [Py.VStr "Alice"; Py.VInt 30])
              = Ret (Py.VStr "Hello, Alice")) by (vm_compute; reflexivity).
  split; [exact H|].
  destruct (X23_returned_means_checked Py.isinstance Py.type_name Py.greet
              [Py.VStr "Alice"; Py.VInt 30] (Py.VStr "Hello, Alice") H)
    as (bound & Hb & Hargs & _).
  exists bound. split; [exact Hb|exact Hargs].
Defined.

Lemma X25_return_mismatch_witness :
  bind_arguments answer [] = Ret [] /\
  enforce_types Py.isinstance Py.type_name answer []
  = {| call_outcome := Raise TypeError; body_runs := 1 |}.
Proof.
  split; [reflexivity|].
  apply (X25_return_mismatch Py.isinstance Py.type_name answer [] [] (Py.VInt 42)
           (Py.AClass Py.CStr)); try reflexivity.
  - intros name v a Hin. inversion Hin.
  - split; [intros v; reflexivity|eexists; reflexivity].
Defined.

Lemma X26_no_annotations_witness :
  annotations plain = ∅ /\
  enforce_types Py.isinstance Py.type_name plain [Py.VInt 1; Py.VNone]
  = {| call_outcome := run_body plain [Py.VInt 1; Py.VNone]; body_runs := 1 |}.
Proof.
  split; [reflexivity|].
  apply (X26_no_annotations Py.isinstance Py.type_name plain [Py.VInt 1; Py.VNone]
           [("x", Py.VInt 1); ("y", Py.VNone)]); reflexivity.
Defined.
